(** * Gemini Lens: edit history, model invocation adapter and export geometry

    A shallow embedding of the photo editor's state logic:
    - [types.ts]: the enumerations and the records [Adjustments],
      [CropSettings], [ProcessingState] and [ImageState];
    - [services/geminiService]: [stripBase64Prefix] and [performImageEdit];
    - [App]: [handleFileUpload], [pushHistory], [undo], [redo],
      [updateAdjustment], [setFilter], [handleAIEdit], the crop rectangle and
      the filter chain of [generateFinalImage], and [getCssFilterString].

    Conventions of the embedding.
    - A value of type [string | null] is an [option string]; a JavaScript
      truthiness test on it is [truthy].
    - [historyIndex] and array positions are natural numbers: the code only
      ever stores [0], a guarded [historyIndex - 1], a guarded
      [historyIndex + 1] or [newHistory.length - 1] there.
    - Slider values are integers ([Z]): each slider is an
      [<input type="range">] with integer bounds and the default step.
    - Pixel dimensions and aspect ratios are JavaScript numbers, that is
      IEEE binary64 values ([float]), and the crop arithmetic is the
      binary64 arithmetic of the kernel's primitive floats.
    - Reading a field of [undefined] raises a [TypeError]; an operation that
      can do so returns an [option], [None] standing for the exception. *)

From Stdlib Require Import Floats.
From Stdlib Require Import String Ascii Bool Arith ZArith Lia List.
From Stdlib Require Import DecimalString.
Import ListNotations.

Local Open Scope string_scope.
Local Open Scope list_scope.
Local Open Scope nat_scope.

(** ** types.ts *)

Module EditMode.
Inductive t : Type :=
| PIXEL_ART | ANIME | REMOVE_BG | REPLACE_BG | ENHANCE | NONE.

Definition eqb (a b : t) : bool :=
  match a, b with
  | PIXEL_ART, PIXEL_ART | ANIME, ANIME | REMOVE_BG, REMOVE_BG
  | REPLACE_BG, REPLACE_BG | ENHANCE, ENHANCE | NONE, NONE => true
  | _, _ => false
  end.
End EditMode.

Module FilterType.
Inductive t : Type :=
| NONE | GRAYSCALE | SEPIA | VINTAGE | BLUR.

Definition eqb (a b : t) : bool :=
  match a, b with
  | NONE, NONE | GRAYSCALE, GRAYSCALE | SEPIA, SEPIA
  | VINTAGE, VINTAGE | BLUR, BLUR => true
  | _, _ => false
  end.
End FilterType.

Record Adjustments : Type := mkAdjustments {
  brightness : Z;
  contrast : Z;
  saturation : Z;
  blur : Z
}.

(** [keyof Adjustments] *)
Inductive AdjustmentKey : Type :=
| Kbrightness | Kcontrast | Ksaturation | Kblur.

Record CropSettings : Type := mkCropSettings {
  aspectRatio : option float;
  active : bool
}.

Record ProcessingState : Type := mkProcessingState {
  isProcessing : bool;
  error : option string;
  mode : option EditMode.t
}.

(** One element of [ImageState.history]. *)
Record HistoryEntry : Type := mkHistoryEntry {
  h_current : option string;
  h_adjustments : Adjustments;
  h_filter : FilterType.t
}.

Record ImageState : Type := mkImageState {
  id : string;
  original : option string;
  current : option string;
  thumbnail : option string;
  mimeType : string;
  name : string;
  adjustments : Adjustments;
  filter : FilterType.t;
  history : list HistoryEntry;
  historyIndex : nat
}.

(** The part of [Partial<ImageState>] that [pushHistory] reads: each key is
    absent ([None]) or carries a value; a [current] key can carry [null]
    ([Some None]). *)
Record PartialImageState : Type := mkPartial {
  p_current : option (option string);
  p_adjustments : option Adjustments;
  p_filter : option FilterType.t
}.

(** ** JavaScript helpers *)

(** Truthiness of a [string | null | undefined]. *)
Definition truthy (o : option string) : bool :=
  match o with
  | Some s => negb (String.eqb s "")
  | None => false
  end.

(** [a || b] on strings. *)
Definition or_else (a b : string) : string :=
  if String.eqb a "" then b else a.

(** [a ?? b] *)
Definition nullish {A : Type} (a : option A) (b : A) : A :=
  match a with
  | Some x => x
  | None => b
  end.

(** [s.split(c)] for a one-character separator. *)
Fixpoint split (c : ascii) (s : string) : list string :=
  match s with
  | EmptyString => [EmptyString]
  | String a rest =>
      if Ascii.eqb a c then EmptyString :: split c rest
      else match split c rest with
           | hd :: tl => String a hd :: tl
           | [] => [String a EmptyString]
           end
  end.

(** Template-literal rendering of an integer. *)
Definition show (z : Z) : string := NilZero.string_of_int (Z.to_int z).

(** [haystack.includes(needle)] *)
Fixpoint includes (needle haystack : string) : bool :=
  if String.prefix needle haystack then true
  else match haystack with
       | EmptyString => false
       | String _ rest => includes needle rest
       end.

(** ** App: default state and session creation *)

Definition DEFAULT_ADJUSTMENTS : Adjustments :=
  {| brightness := 100; contrast := 100; saturation := 100; blur := 0 |}.

(** The [newImg] object built by the [reader.onload] callback of
    [handleFileUpload]; [rid] is the identifier drawn from [Math.random]. *)
Definition newImg (rid fileName fileType base64 : string) : ImageState :=
  {| id := rid;
     name := fileName;
     original := Some base64;
     current := Some base64;
     thumbnail := Some base64;
     mimeType := fileType;
     adjustments := DEFAULT_ADJUSTMENTS;
     filter := FilterType.NONE;
     history := [ {| h_current := Some base64;
                     h_adjustments := DEFAULT_ADJUSTMENTS;
                     h_filter := FilterType.NONE |} ];
     historyIndex := 0 |}.

(** ** App: history management, per session

    Each of the following is the function that the corresponding handler
    maps over the session whose [id] matches. *)

(** [newHistoryItem] of [pushHistory]. *)
Definition newHistoryItem (newState : PartialImageState) (img : ImageState)
  : HistoryEntry :=
  {| h_current := match p_current newState with
                  | Some (Some c) => Some c
                  | _ => current img
                  end;
     h_adjustments := nullish (p_adjustments newState) (adjustments img);
     h_filter := nullish (p_filter newState) (filter img) |}.

(** The object returned by the [pushHistory] updater for the matching
    session: [{...img, ...newState, history, historyIndex}]. *)
Definition pushHistory_img (newState : PartialImageState) (img : ImageState)
  : ImageState :=
  let newHistory :=
    firstn (historyIndex img + 1) (history img) ++ [newHistoryItem newState img] in
  {| id := id img;
     original := original img;
     current := nullish (p_current newState) (current img);
     thumbnail := thumbnail img;
     mimeType := mimeType img;
     name := name img;
     adjustments := nullish (p_adjustments newState) (adjustments img);
     filter := nullish (p_filter newState) (filter img);
     history := newHistory;
     historyIndex := length newHistory - 1 |}.

(** [{...img, current, adjustments, filter, historyIndex}] of [undo] and
    [redo]. *)
Definition restore (historicalState : HistoryEntry) (index : nat)
  (img : ImageState) : ImageState :=
  {| id := id img;
     original := original img;
     current := h_current historicalState;
     thumbnail := thumbnail img;
     mimeType := mimeType img;
     name := name img;
     adjustments := h_adjustments historicalState;
     filter := h_filter historicalState;
     history := history img;
     historyIndex := index |}.

(** [undo] on the active session. *)
Definition undo_img (img : ImageState) : option ImageState :=
  if historyIndex img <=? 0 then Some img
  else
    let prevIndex := historyIndex img - 1 in
    match nth_error (history img) prevIndex with
    | Some historicalState => Some (restore historicalState prevIndex img)
    | None => None
    end.

(** [redo] on the active session. *)
Definition redo_img (img : ImageState) : option ImageState :=
  if length (history img) - 1 <=? historyIndex img then Some img
  else
    let nextIndex := historyIndex img + 1 in
    match nth_error (history img) nextIndex with
    | Some historicalState => Some (restore historicalState nextIndex img)
    | None => None
    end.

(** [{ ...img.adjustments, [key]: value }] *)
Definition setAdjustment (key : AdjustmentKey) (value : Z) (a : Adjustments)
  : Adjustments :=
  match key with
  | Kbrightness => {| brightness := value; contrast := contrast a;
                      saturation := saturation a; blur := blur a |}
  | Kcontrast => {| brightness := brightness a; contrast := value;
                    saturation := saturation a; blur := blur a |}
  | Ksaturation => {| brightness := brightness a; contrast := contrast a;
                      saturation := value; blur := blur a |}
  | Kblur => {| brightness := brightness a; contrast := contrast a;
                saturation := saturation a; blur := value |}
  end.

(** [updateAdjustment] on the active session. *)
Definition updateAdjustment_img (key : AdjustmentKey) (value : Z)
  (img : ImageState) : ImageState :=
  {| id := id img;
     original := original img;
     current := current img;
     thumbnail := thumbnail img;
     mimeType := mimeType img;
     name := name img;
     adjustments := setAdjustment key value (adjustments img);
     filter := filter img;
     history := history img;
     historyIndex := historyIndex img |}.

(** ** App: component state and handlers *)

Record AppState : Type := mkAppState {
  images : list ImageState;
  activeImageId : option string;
  processing : ProcessingState;
  selectedBgColor : string;
  customBgImage : option string;
  cropConfig : CropSettings
}.

Definition setImages (f : list ImageState -> list ImageState) (st : AppState)
  : AppState :=
  {| images := f (images st);
     activeImageId := activeImageId st;
     processing := processing st;
     selectedBgColor := selectedBgColor st;
     customBgImage := customBgImage st;
     cropConfig := cropConfig st |}.

Definition setActiveImageId (i : option string) (st : AppState) : AppState :=
  {| images := images st;
     activeImageId := i;
     processing := processing st;
     selectedBgColor := selectedBgColor st;
     customBgImage := customBgImage st;
     cropConfig := cropConfig st |}.

Definition setProcessing (p : ProcessingState) (st : AppState) : AppState :=
  {| images := images st;
     activeImageId := activeImageId st;
     processing := p;
     selectedBgColor := selectedBgColor st;
     customBgImage := customBgImage st;
     cropConfig := cropConfig st |}.

Definition setSelectedBgColor (c : string) (st : AppState) : AppState :=
  {| images := images st;
     activeImageId := activeImageId st;
     processing := processing st;
     selectedBgColor := c;
     customBgImage := customBgImage st;
     cropConfig := cropConfig st |}.

Definition setCustomBgImage (b : option string) (st : AppState) : AppState :=
  {| images := images st;
     activeImageId := activeImageId st;
     processing := processing st;
     selectedBgColor := selectedBgColor st;
     customBgImage := b;
     cropConfig := cropConfig st |}.

Definition setCropConfig (c : CropSettings) (st : AppState) : AppState :=
  {| images := images st;
     activeImageId := activeImageId st;
     processing := processing st;
     selectedBgColor := selectedBgColor st;
     customBgImage := customBgImage st;
     cropConfig := c |}.

(** [BACKGROUND_OPTIONS[0].value] *)
Definition BACKGROUND_OPTIONS_0_value : string := "#ffffff".

(** The state of [App] on mount. *)
Definition initialApp : AppState :=
  {| images := [];
     activeImageId := None;
     processing := {| isProcessing := false; error := None; mode := None |};
     selectedBgColor := BACKGROUND_OPTIONS_0_value;
     customBgImage := None;
     cropConfig := {| aspectRatio := None; active := false |} |}.

(** [images.find(img => img.id === activeImageId)] *)
Definition activeImage (st : AppState) : option ImageState :=
  match activeImageId st with
  | Some aid => find (fun img => String.eqb (id img) aid) (images st)
  | None => None
  end.

(** [prev.map(img => img.id === imageId ? f(img) : img)] *)
Definition mapMatching (imageId : string) (f : ImageState -> ImageState)
  (prev : list ImageState) : list ImageState :=
  map (fun img => if String.eqb (id img) imageId then f img else img) prev.

(** What [handleFileUpload] reads of a [File]: its [name] and [type]. *)
Record File : Type := mkFile {
  file_name : string;
  file_type : string
}.

(** A [FileReader] started by [handleFileUpload]: its [onload] callback
    closes over the file and over [activeImageId] as the render that
    handled the change event had it. *)
Record Read : Type := mkRead {
  readFile : File;
  readActiveImageId : option string
}.

(** [file.type.startsWith('image/')] *)
Definition isImageFile (file : File) : bool :=
  String.prefix "image/" (file_type file).

#[global] Arguments isImageFile : simpl never.

(** [handleFileUpload] on the files of a change event: one reader for each
    file whose type starts with [image/], in the order of the files; the
    other files get none. *)
Definition handleFileUpload (files : list File) (st : AppState) : list Read :=
  map (fun file => {| readFile := file;
                      readActiveImageId := activeImageId st |})
      (List.filter isImageFile files).

(** The [reader.onload] callback of a read, called with the data URL
    [result] the file was read as; [rid] is the identifier drawn from
    [Math.random].  The test [!activeImageId] is on the value the callback
    closed over, not on the state the updater runs in. *)
Definition readerOnload (read : Read) (rid result : string) (st : AppState)
  : AppState :=
  if negb (String.eqb result "") then
    let updated :=
      images st ++ [newImg rid (file_name (readFile read))
                           (file_type (readFile read)) result] in
    let st' := setImages (fun _ => updated) st in
    if truthy (readActiveImageId read) then st'
    else setActiveImageId (option_map id (hd_error updated)) st'
  else st.

Definition pushHistory (newState : PartialImageState) (imageId : string)
  (st : AppState) : AppState :=
  setImages (mapMatching imageId (pushHistory_img newState)) st.

Definition undo (st : AppState) : option AppState :=
  match activeImage st with
  | None => Some st
  | Some a =>
      if historyIndex a <=? 0 then Some st
      else
        let prevIndex := historyIndex a - 1 in
        match nth_error (history a) prevIndex with
        | Some historicalState =>
            Some (setImages
                    (mapMatching (id a) (restore historicalState prevIndex)) st)
        | None => None
        end
  end.

Definition redo (st : AppState) : option AppState :=
  match activeImage st with
  | None => Some st
  | Some a =>
      if length (history a) - 1 <=? historyIndex a then Some st
      else
        let nextIndex := historyIndex a + 1 in
        match nth_error (history a) nextIndex with
        | Some historicalState =>
            Some (setImages
                    (mapMatching (id a) (restore historicalState nextIndex)) st)
        | None => None
        end
  end.

Definition updateAdjustment (key : AdjustmentKey) (value : Z) (st : AppState)
  : AppState :=
  match activeImage st with
  | None => st
  | Some a => setImages (mapMatching (id a) (updateAdjustment_img key value)) st
  end.

Definition setFilter (f : FilterType.t) (st : AppState) : AppState :=
  match activeImage st with
  | None => st
  | Some a =>
      pushHistory {| p_current := None; p_adjustments := None;
                     p_filter := Some f |} (id a) st
  end.

(** ** services/geminiService *)

Definition stripBase64Prefix (dataUrl : string) : option string :=
  nth_error (split "," dataUrl) 1.

Record EditOptions : Type := mkEditOptions {
  backgroundColor : option string;
  backgroundImage : option string
}.

(** One element of [contentsParts]. *)
Inductive RequestPart : Type :=
| InlineDataPart (partMimeType : option string) (partData : option string)
| TextPart (text : string).

Record ImageConfig : Type := mkImageConfig {
  imageSize : string;
  configAspectRatio : string
}.

(** The argument of [ai.models.generateContent]. *)
Record Request : Type := mkRequest {
  model : string;
  contents : list RequestPart;
  imageConfig : option ImageConfig
}.

(** The shape of a response, as far as the extraction reads it. *)
Record Blob : Type := mkBlob {
  blobMimeType : option string;
  data : option string
}.

Record Part : Type := mkPart {
  inlineData : option Blob;
  partText : option string
}.

Record Content : Type := mkContent { parts : option (list Part) }.
Record Candidate : Type := mkCandidate { content : option Content }.
Record Response : Type := mkResponse { candidates : option (list Candidate) }.

Definition PROMPT_PIXEL_ART : string :=
  "Convert this image into a pixel art style. Maintain the original subject and composition but render it with clear pixelation and vibrant colors appropriate for pixel art video games.".

Definition PROMPT_ANIME : string :=
  "Transform this image into a high-quality anime style illustration. Use distinct line work, shading, and anime aesthetic while keeping the subject recognizable.".

Definition PROMPT_REMOVE_BG : string :=
  "Isolate the main subject of this image and place it on a pure solid white background. Ensure the edges are clean and precise.".

Definition PROMPT_COMPOSITE : string :=
  "Composite the subject from the first image onto the background provided in the second image. Adjust lighting and shadows of the subject to match the new environment realistically.".

Definition PROMPT_COLOR (color : string) : string :=
  String.append
    "Isolate the main subject of this image and place it on a background with the color/style: "
    (String.append color ". Ensure realistic integration.").

Definition PROMPT_SCENIC : string :=
  "Place the subject of this image into a scenic outdoor environment.".

Definition PROMPT_ENHANCE : string :=
  "Recreate this image in ultra-high resolution (4K). Enhance fine details, textures, and lighting clarity significantly. Fix any blurriness or noise. Make it look like a professional photograph.".

Definition MODEL_FLASH : string := "gemini-2.5-flash-image".
Definition MODEL_PRO : string := "gemini-3-pro-image-preview".

Definition NO_IMAGE_DATA : string :=
  "No image data found in response. The model may have returned text only.".

(** Step 3 of [performImageEdit]: the mutable [model], [prompt],
    [imageConfig] and [contentsParts] after the [switch], with the prompt
    appended to the parts. *)
Definition configure (imageData : option string) (mimeType : string)
  (mode : EditMode.t) (options : EditOptions) : Request :=
  let first := InlineDataPart (Some mimeType) imageData in
  match mode with
  | EditMode.PIXEL_ART =>
      {| model := MODEL_FLASH;
         contents := [first; TextPart PROMPT_PIXEL_ART];
         imageConfig := None |}
  | EditMode.ANIME =>
      {| model := MODEL_FLASH;
         contents := [first; TextPart PROMPT_ANIME];
         imageConfig := None |}
  | EditMode.REMOVE_BG =>
      {| model := MODEL_FLASH;
         contents := [first; TextPart PROMPT_REMOVE_BG];
         imageConfig := None |}
  | EditMode.REPLACE_BG =>
      if truthy (backgroundImage options) then
        let bg := nullish (backgroundImage options) "" in
        {| model := MODEL_PRO;
           contents :=
             [first;
              InlineDataPart
                (nth_error (split ":" (hd "" (split ";" bg))) 1)
                (stripBase64Prefix bg);
              TextPart PROMPT_COMPOSITE];
           imageConfig := None |}
      else if truthy (backgroundColor options) then
        {| model := MODEL_FLASH;
           contents :=
             [first;
              TextPart (PROMPT_COLOR (nullish (backgroundColor options) ""))];
           imageConfig := None |}
      else
        {| model := MODEL_FLASH;
           contents := [first; TextPart PROMPT_SCENIC];
           imageConfig := None |}
  | EditMode.ENHANCE =>
      {| model := MODEL_PRO;
         contents := [first; TextPart PROMPT_ENHANCE];
         imageConfig := Some {| imageSize := "4K"; configAspectRatio := "1:1" |} |}
  | EditMode.NONE =>
      {| model := MODEL_FLASH;
         contents := [first; TextPart ""];
         imageConfig := None |}
  end.

(** The instruction text of a request: its [text] part. *)
Fixpoint promptOf (ps : list RequestPart) : string :=
  match ps with
  | [] => ""
  | TextPart t :: _ => t
  | InlineDataPart _ _ :: rest => promptOf rest
  end.

(** The [for ... of] loop of step 4: the [data] of the first part whose
    [inlineData] and [inlineData.data] are truthy, [''] when there is none. *)
Fixpoint firstInlineData (ps : list Part) : string :=
  match ps with
  | [] => ""
  | part :: rest =>
      match inlineData part with
      | Some blob =>
          if truthy (data blob) then nullish (data blob) ""
          else firstInlineData rest
      | None => firstInlineData rest
      end
  end.

(** [outputImageBase64] after step 4; [None] is the [TypeError] of reading
    [content] of [response.candidates[0]] when [candidates] is an empty
    array. *)
Definition outputImageBase64 (response : Response) : option string :=
  match candidates response with
  | None => Some ""
  | Some [] => None
  | Some (candidate :: _) =>
      match content candidate with
      | None => Some ""
      | Some c =>
          match parts c with
          | None => Some ""
          | Some ps => Some (firstInlineData ps)
          end
      end
  end.

(** What the awaited [generateContent] promise does. *)
Inductive Reply : Type :=
| Resolved (response : Response)
| Rejected (message : string).

(** The collaborators of [performImageEdit]: [window.aistudio] (absent, or
    present with the answer of [hasSelectedApiKey]), the model API, and the
    message text the JavaScript engine gives a [TypeError] for reading the
    named property of [null] or [undefined]. *)
Record Host : Type := mkHost {
  aistudio : option bool;
  generateContent : Request -> Reply;
  typeErrorMessage : string -> string
}.

(** Calls leaving [performImageEdit], in order. *)
Inductive Event : Type :=
| HasSelectedApiKey
| OpenSelectKey
| GenerateContent (request : Request).

(** A settled promise of [performImageEdit]. *)
Inductive Result : Type :=
| Ok (dataUrl : string)
| Err (message : string).

(** Step 1: the key-selection flow. *)
Definition keySelection (host : Host) (mode : EditMode.t) : list Event :=
  if EditMode.eqb mode EditMode.ENHANCE || EditMode.eqb mode EditMode.REPLACE_BG
  then match aistudio host with
       | Some hasKey =>
           if hasKey then [HasSelectedApiKey]
           else [HasSelectedApiKey; OpenSelectKey]
       | None => []
       end
  else [].

(** The [try] block after the call has settled, with the [catch] that
    rethrows [error.message || "Failed to process image"]. *)
Definition settle (host : Host) (reply : Reply) : Result :=
  match reply with
  | Rejected message => Err (or_else message "Failed to process image")
  | Resolved response =>
      match outputImageBase64 response with
      | None => Err (or_else (typeErrorMessage host "content")
                             "Failed to process image")
      | Some out =>
          if String.eqb out "" then
            Err (or_else NO_IMAGE_DATA "Failed to process image")
          else Ok (String.append "data:image/png;base64," out)
      end
  end.

(** [performImageEdit]: the calls it makes and how its promise settles.  A
    [null] image makes [stripBase64Prefix] raise before the [try].  Building
    the client from the configured credential (step 2) makes no call and is
    taken to succeed. *)
Definition performImageEdit (host : Host) (imageBase64 : option string)
  (mimeType : string) (mode : EditMode.t) (options : EditOptions)
  : list Event * Result :=
  match imageBase64 with
  | None => (keySelection host mode, Err (typeErrorMessage host "split"))
  | Some dataUrl =>
      let request := configure (stripBase64Prefix dataUrl) mimeType mode options in
      (keySelection host mode ++ [GenerateContent request],
       settle host (generateContent host request))
  end.

(** ** App: AI processing

    [handleAIEdit] is an async function; it runs up to the awaited
    [performImageEdit] call ([handleAIEdit_begin]) and continues when that
    promise has settled ([handleAIEdit_resume]).  [Call] is what the
    suspended function keeps: the captured [activeImage] fields and the
    arguments it passed. *)

Record Call : Type := mkCall {
  callImageId : string;
  callImage : option string;
  callMimeType : string;
  callMode : EditMode.t;
  callOptions : EditOptions
}.

Definition handleAIEdit_begin (mode : EditMode.t) (st : AppState)
  : AppState * option Call :=
  match activeImage st with
  | None => (st, None)
  | Some a =>
      if isProcessing (processing st) then (st, None)
      else
        (setProcessing
           {| isProcessing := true; error := None; mode := Some mode |} st,
         Some {| callImageId := id a;
                 callImage := current a;
                 callMimeType := mimeType a;
                 callMode := mode;
                 callOptions :=
                   {| backgroundColor := Some (selectedBgColor st);
                      backgroundImage := customBgImage st |} |})
  end.

Definition handleAIEdit_resume (call : Call) (settled : Result)
  (st : AppState) : AppState :=
  match settled with
  | Ok resultBase64 =>
      setCustomBgImage None
        (setProcessing
           {| isProcessing := false; error := None; mode := None |}
           (pushHistory
              {| p_current := Some (Some resultBase64);
                 p_adjustments := None; p_filter := None |}
              (callImageId call) st))
  | Err message =>
      setProcessing
        {| isProcessing := false;
           error := Some (or_else message "Processing failed.");
           mode := None |} st
  end.

(** The adapter call a suspended [handleAIEdit] is waiting for. *)
Definition invoke (host : Host) (call : Call) : list Event * Result :=
  performImageEdit host (callImage call) (callMimeType call) (callMode call)
    (callOptions call).

(** [handleAIEdit] with nothing happening while the call is outstanding:
    the outbound calls made and the state once the handler has finished. *)
Definition handleAIEdit (host : Host) (mode : EditMode.t) (st : AppState)
  : list Event * AppState :=
  match handleAIEdit_begin mode st with
  | (st', Some call) =>
      let (events, settled) := invoke host call in
      (events, handleAIEdit_resume call settled st')
  | (st', None) => ([], st')
  end.

(** [handleBgUpload], once the file has been read. *)
Definition handleBgUpload (dataUrl : string) (st : AppState) : AppState :=
  if String.eqb dataUrl "" then st else setCustomBgImage (Some dataUrl) st.

(** The [onClick] of a background swatch. *)
Definition selectBackground (value : string) (st : AppState) : AppState :=
  setCustomBgImage None (setSelectedBgColor value st).

(** The [onClick] of an aspect-ratio button. *)
Definition selectAspectRatio (value : option float) (st : AppState) : AppState :=
  setCropConfig
    {| aspectRatio := value; active := active (cropConfig st) |} st.

(** ** The event loop

    The component together with the [performImageEdit] promises that have
    not settled yet.  Every handler runs to completion (or to its [await])
    before the next event is taken. *)

Record Sys : Type := mkSys {
  app : AppState;
  inflight : list Call
}.

Inductive Action : Type :=
| FileLoaded (read : Read) (rid result : string)
| Select (imageId : string)
| Undo
| Redo
| UpdateAdjustment (key : AdjustmentKey) (value : Z)
| SetFilter (f : FilterType.t)
| SelectBackground (value : string)
| BgUpload (dataUrl : string)
| SelectAspectRatio (value : option float)
| AIEdit (mode : EditMode.t)
| Settle (settled : Result).

Definition onApp (f : AppState -> AppState) (s : Sys) : Sys :=
  {| app := f (app s); inflight := inflight s |}.

(** One event; [None] when a handler raises, when [Settle] is offered with
    no promise outstanding, or when [FileLoaded] is offered for a file that
    got no reader.  [FileLoaded read] is the [onload] of a reader started by
    an earlier change event; the value of [activeImageId] it closed over is
    left free, which covers every state the event can have been handled
    in. *)
Definition step (a : Action) (s : Sys) : option Sys :=
  match a with
  | FileLoaded read rid result =>
      if isImageFile (readFile read)
      then Some (onApp (readerOnload read rid result) s)
      else None
  | Select imageId => Some (onApp (setActiveImageId (Some imageId)) s)
  | Undo => option_map (fun st => {| app := st; inflight := inflight s |})
                       (undo (app s))
  | Redo => option_map (fun st => {| app := st; inflight := inflight s |})
                       (redo (app s))
  | UpdateAdjustment key value => Some (onApp (updateAdjustment key value) s)
  | SetFilter f => Some (onApp (setFilter f) s)
  | SelectBackground value => Some (onApp (selectBackground value) s)
  | BgUpload dataUrl => Some (onApp (handleBgUpload dataUrl) s)
  | SelectAspectRatio value => Some (onApp (selectAspectRatio value) s)
  | AIEdit mode =>
      let (st', issued) := handleAIEdit_begin mode (app s) in
      Some {| app := st';
              inflight := match issued with
                          | Some call => inflight s ++ [call]
                          | None => inflight s
                          end |}
  | Settle settled =>
      match inflight s with
      | call :: rest =>
          Some {| app := handleAIEdit_resume call settled (app s);
                  inflight := rest |}
      | [] => None
      end
  end.

Definition initialSys : Sys := {| app := initialApp; inflight := [] |}.

Inductive reachable : Sys -> Prop :=
| reachable_init : reachable initialSys
| reachable_step : forall a s s',
    reachable s -> step a s = Some s' -> reachable s'.

(** ** App: export geometry and filter chains *)

Record CropRect : Type := mkCropRect {
  sx : float;
  sy : float;
  sWidth : float;
  sHeight : float
}.

(** Truthiness of a number: neither [0], [-0] nor [NaN]. *)
Definition truthyNumber (x : float) : bool :=
  negb (PrimFloat.eqb x 0) && PrimFloat.eqb x x.

(** The source rectangle [generateFinalImage] passes to [drawImage], for an
    image whose [img.width] and [img.height] are [width] and [height]. *)
Definition cropRect (width height : float) (crop : CropSettings) : CropRect :=
  let full := {| sx := 0; sy := 0; sWidth := width; sHeight := height |} in
  match aspectRatio crop with
  | None => full
  | Some targetRatio =>
      if truthyNumber targetRatio then
        let imgRatio := (width / height)%float in
        if PrimFloat.ltb imgRatio targetRatio then
          let sHeight' := (width / targetRatio)%float in
          {| sx := 0; sy := ((height - sHeight') / 2)%float;
             sWidth := width; sHeight := sHeight' |}
        else
          let sWidth' := (height * targetRatio)%float in
          {| sx := ((width - sWidth') / 2)%float; sy := 0;
             sWidth := sWidth'; sHeight := height |}
      else full
  end.

(** The four adjustment terms, shared by both filter chains. *)
Definition adjustmentTerms (adj : Adjustments) : list string :=
  [ String.append "brightness(" (String.append (show (brightness adj)) "%)");
    String.append "contrast(" (String.append (show (contrast adj)) "%)");
    String.append "saturate(" (String.append (show (saturation adj)) "%)");
    String.append "blur(" (String.append (show (blur adj)) "px)") ].

(** [filters.push(term)] guarded by [activeImage.filter === f]. *)
Definition pushIf (f type : FilterType.t) (term : string)
  (filters : list string) : list string :=
  if FilterType.eqb type f then filters ++ [term] else filters.

(** The [filters] array of [generateFinalImage]. *)
Definition exportFilters (adj : Adjustments) (type : FilterType.t)
  : list string :=
  pushIf FilterType.VINTAGE type "sepia(50%) contrast(120%) brightness(90%)"
    (pushIf FilterType.SEPIA type "sepia(100%)"
       (pushIf FilterType.GRAYSCALE type "grayscale(100%)"
          (adjustmentTerms adj))).

(** [ctx.filter = filters.join(' ')] *)
Definition exportFilterString (adj : Adjustments) (type : FilterType.t)
  : string :=
  String.concat " " (exportFilters adj type).

(** [s += term] guarded by [type === f]. *)
Definition appendIf (f type : FilterType.t) (term s : string) : string :=
  if FilterType.eqb type f then String.append s term else s.

Definition getCssFilterString (adj : Adjustments) (type : FilterType.t)
  : string :=
  let s :=
    String.append (String.concat " " (adjustmentTerms adj)) " " in
  appendIf FilterType.VINTAGE type "sepia(50%) contrast(120%) brightness(90%)"
    (appendIf FilterType.SEPIA type "sepia(100%)"
       (appendIf FilterType.GRAYSCALE type "grayscale(100%)" s)).

(** ** Sessions over time

    What the handlers can do to one session, and the states a session can be
    in.  A commit is [pushHistory] as its callers use it: [setFilter]
    supplies a filter, [handleAIEdit] a result image; in general any partial
    state whose [current], when supplied, is an image. *)

(** The triple a session shows: its [current], [adjustments] and [filter]. *)
Definition visible (img : ImageState) : HistoryEntry :=
  {| h_current := current img;
     h_adjustments := adjustments img;
     h_filter := filter img |}.

(** [newState] supplies no [null] image. *)
Definition suppliesImage (newState : PartialImageState) : bool :=
  match p_current newState with
  | Some None => false
  | _ => true
  end.

Inductive session_step : ImageState -> ImageState -> Prop :=
| step_commit : forall newState img,
    suppliesImage newState = true ->
    session_step img (pushHistory_img newState img)
| step_undo : forall img img',
    undo_img img = Some img' -> session_step img img'
| step_redo : forall img img',
    redo_img img = Some img' -> session_step img img'
| step_adjust : forall key value img,
    session_step img (updateAdjustment_img key value img).

Inductive session_reachable : ImageState -> Prop :=
| session_created : forall rid fileName fileType base64,
    session_reachable (newImg rid fileName fileType base64)
| session_stepped : forall img img',
    session_reachable img -> session_step img img' -> session_reachable img'.

(** The cursor is a position of the history, and the entry there is the
    visible triple. *)
Definition snapshot_invariant (img : ImageState) : Prop :=
  historyIndex img < length (history img)
  /\ nth_error (history img) (historyIndex img) = Some (visible img).

(** The same, with the entry at the cursor compared on image and filter
    only. *)
Definition cursor_invariant (img : ImageState) : Prop :=
  historyIndex img < length (history img)
  /\ exists entry,
       nth_error (history img) (historyIndex img) = Some entry
       /\ h_current entry = current img
       /\ h_filter entry = filter img.


Fixpoint undos (n : nat) (img : ImageState) : option ImageState :=
  match n with
  | 0 => Some img
  | S k => match undo_img img with
           | Some img' => undos k img'
           | None => None
           end
  end.


(** The fields no history operation writes. *)
Definition same_identity (a b : ImageState) : Prop :=
  id a = id b /\ original a = original b /\ thumbnail a = thumbnail b
  /\ mimeType a = mimeType b /\ name a = name b.

(** The cursor is on the last entry. *)
Definition at_end (img : ImageState) : Prop :=
  historyIndex img + 1 = length (history img).

(** ** Responses and the single-flight gate *)

(** [part.inlineData && part.inlineData.data] *)
Definition hasInlineData (part : Part) : bool :=
  match inlineData part with
  | Some blob => truthy (data blob)
  | None => false
  end.

(** The ordered content parts of a response:
    [response.candidates[0].content.parts], when there is such a list. *)
Definition contentParts (response : Response) : option (list Part) :=
  match candidates response with
  | Some (candidate :: _) =>
      match content candidate with
      | Some c => parts c
      | None => None
      end
  | _ => None
  end.

(** Either nothing is outstanding and the flag is down, or one call is and
    the flag is up. *)
Definition single_flight (s : Sys) : Prop :=
  (inflight s = [] /\ isProcessing (processing (app s)) = false)
  \/ (exists call,
        inflight s = [call] /\ isProcessing (processing (app s)) = true).

(** Runs of the event loop in which [Math.random] never repeats an
    identifier: every file read brings an [id] no session has yet. *)
Definition freshId (a : Action) (s : Sys) : Prop :=
  match a with
  | FileLoaded _ rid _ => ~ In rid (map id (images (app s)))
  | _ => True
  end.

Inductive reachable_fresh : Sys -> Prop :=
| fresh_init : reachable_fresh initialSys
| fresh_step : forall a s s',
    reachable_fresh s -> freshId a s -> step a s = Some s' ->
    reachable_fresh s'.

(** The session shows an image and every one of its snapshots holds one. *)
Definition showsImage (img : ImageState) : Prop :=
  current img <> None
  /\ Forall (fun entry => h_current entry <> None) (history img).

(** ** Sample inputs *)

Definition samplePhoto : string := "data:image/png;base64,AAAA".

Definition sampleSession : ImageState :=
  newImg "k3x9" "photo.png" "image/png" samplePhoto.

Definition sampleFile : File :=
  {| file_name := "photo.png"; file_type := "image/png" |}.

(** The reader [handleFileUpload] starts for [sampleFile] on mount. *)
Definition sampleRead : Read :=
  {| readFile := sampleFile; readActiveImageId := None |}.

(** The component after one upload. *)
Definition sampleApp : AppState :=
  readerOnload sampleRead "k3x9" samplePhoto initialApp.

Definition imageResponse : Response :=
  {| candidates :=
       Some [ {| content :=
                   Some {| parts :=
                             Some [ {| inlineData := None;
                                       partText := Some "Here you go." |};
                                    {| inlineData :=
                                         Some {| blobMimeType := Some "image/png";
                                                 data := Some "BBBB" |};
                                       partText := None |} ] |} |} ] |}.

Definition textOnlyResponse : Response :=
  {| candidates :=
       Some [ {| content :=
                   Some {| parts :=
                             Some [ {| inlineData := None;
                                       partText := Some "I cannot do that." |} ] |} |} ] |}.

(** A response with an empty [candidates] array, as the model API gives
    when it returns no candidate. *)
Definition emptyCandidatesResponse : Response :=
  {| candidates := Some [] |}.

Definition sampleHost (response : Response) : Host :=
  {| aistudio := None;
     generateContent := fun _ => Resolved response;
     typeErrorMessage :=
       fun property =>
         String.append "Cannot read properties of undefined (reading '"
                       (String.append property "')") |}.

(** ** App: constants and button states *)

Definition BACKGROUND_OPTIONS : list (string * string) :=
  [ ("White", "#ffffff");
    ("Black", "#000000");
    ("Red", "#ef4444");
    ("Blue", "#3b82f6");
    ("Green", "#10b981");
    ("Sunset Gradient", "linear-gradient(to top, #fca5a5, #fcd34d)");
    ("Midnight Gradient", "linear-gradient(to top, #1e3a8a, #000000)") ].

Definition ASPECT_RATIOS : list (string * option float) :=
  [ ("Free", None);
    ("Square (1:1)", Some 1%float);
    ("Portrait (9:16)", Some (9 / 16)%float);
    ("Landscape (16:9)", Some (16 / 9)%float);
    ("4:3", Some (4 / 3)%float) ].

(** The [disabled] attribute of the undo button:
    [activeImage.historyIndex === 0 || processing.isProcessing]. *)
Definition undoDisabled (a : ImageState) (p : ProcessingState) : bool :=
  (historyIndex a =? 0) || isProcessing p.

(** The [disabled] attribute of the redo button:
    [activeImage.historyIndex === activeImage.history.length - 1 ||
    processing.isProcessing]; the comparison is written with the [1] moved
    to the left so that an empty history compares as in JavaScript. *)
Definition redoDisabled (a : ImageState) (p : ProcessingState) : bool :=
  (historyIndex a + 1 =? length (history a)) || isProcessing p.

(** ** Vocabulary of the further properties *)

(** The character [c] does not occur in [s]. *)
Fixpoint noChar (c : ascii) (s : string) : bool :=
  match s with
  | EmptyString => true
  | String a rest => negb (Ascii.eqb a c) && noChar c rest
  end.

(** The [generateContent] requests among the events of a call. *)
Fixpoint requestsOf (events : list Event) : list Request :=
  match events with
  | [] => []
  | GenerateContent request :: rest => request :: requestsOf rest
  | _ :: rest => requestsOf rest
  end.

(** The fields of a session that identify the upload it came from. *)
Definition identityOf (img : ImageState)
  : string * option string * option string * string * string :=
  (id img, original img, thumbnail img, mimeType img, name img).

(** The snapshot a session is seeded with: the uploaded image, neutral
    adjustments, no filter. *)
Definition seedEntry (base64 : string) : HistoryEntry :=
  {| h_current := Some base64;
     h_adjustments := DEFAULT_ADJUSTMENTS;
     h_filter := FilterType.NONE |}.

(** A partial state that supplies a filter only, as [setFilter] passes it. *)
Definition filterOnly (f : FilterType.t) : PartialImageState :=
  {| p_current := None; p_adjustments := None; p_filter := Some f |}.

(** A partial state that supplies an image only, as [handleAIEdit] passes
    it. *)
Definition resultOnly (resultBase64 : string) : PartialImageState :=
  {| p_current := Some (Some resultBase64);
     p_adjustments := None; p_filter := None |}.

(** A sequence of events, one after the other; [None] as soon as one of
    them is refused. *)
Fixpoint run (actions : list Action) (s : Sys) : option Sys :=
  match actions with
  | [] => Some s
  | a :: rest =>
      match step a s with
      | Some s' => run rest s'
      | None => None
      end
  end.

(** How many of the events are file reads: each is the [onload] of one
    reader, so one change event with several image files accounts for as
    many of them. *)
Fixpoint fileReads (actions : list Action) : nat :=
  match actions with
  | [] => 0
  | FileLoaded _ _ _ :: rest => S (fileReads rest)
  | _ :: rest => fileReads rest
  end.

(** The session still knows its upload: [original] and [thumbnail] hold it
    and the first entry of the history is its seed snapshot. *)
Definition seeded (img : ImageState) : Prop :=
  exists base64,
    original img = Some base64
    /\ thumbnail img = Some base64
    /\ nth_error (history img) 0 = Some (seedEntry base64).

(** What the outstanding call was started with stays true while it is
    outstanding. *)
Definition tracked (s : Sys) : Prop :=
  (forall call,
      In call (inflight s) ->
      In (callImageId call) (map id (images (app s)))
      /\ mode (processing (app s)) = Some (callMode call)
      /\ error (processing (app s)) = None
      /\ exists dataUrl, callImage call = Some dataUrl)
  /\ (inflight s = [] -> mode (processing (app s)) = None).

(** The event loop after one upload, with an [ENHANCE] call outstanding. *)
Definition sampleCall : Call :=
  {| callImageId := "k3x9";
     callImage := Some samplePhoto;
     callMimeType := "image/png";
     callMode := EditMode.ENHANCE;
     callOptions :=
       {| backgroundColor := Some "#ffffff"; backgroundImage := None |} |}.

Definition sampleBusy : Sys :=
  {| app := setProcessing
              {| isProcessing := true; error := None;
                 mode := Some EditMode.ENHANCE |} sampleApp;
     inflight := [sampleCall] |}.

(** * Properties *)

(** ** List and session lemmas *)

Lemma Forall2_mapMatching :
  forall (R : ImageState -> ImageState -> Prop) imageId f l,
    (forall img, R img (if String.eqb (id img) imageId then f img else img)) ->
    Forall2 R l (mapMatching imageId f l).
Proof.
  intros R imageId f l HR.
  induction l as [|img l IH]; simpl; constructor; auto.
Qed.

Lemma Forall2_same :
  forall (R : ImageState -> ImageState -> Prop) l,
    (forall img, R img img) -> Forall2 R l l.
Proof.
  intros R l HR; induction l; constructor; auto.
Qed.

Lemma nth_error_mapMatching :
  forall imageId f l i,
    nth_error (mapMatching imageId f l) i =
    option_map (fun img => if String.eqb (id img) imageId then f img else img)
               (nth_error l i).
Proof.
  intros imageId f l i. unfold mapMatching. apply nth_error_map.
Qed.

(** The new history is never empty and the cursor is its last position. *)
Lemma pushHistory_img_length :
  forall newState img,
    length (history (pushHistory_img newState img)) =
    Nat.min (historyIndex img + 1) (length (history img)) + 1.
Proof.
  intros newState img. simpl.
  rewrite length_app, length_firstn. simpl. reflexivity.
Qed.

Lemma pushHistory_img_cursor :
  forall newState img,
    historyIndex (pushHistory_img newState img) =
    Nat.min (historyIndex img + 1) (length (history img)).
Proof.
  intros newState img.
  change (historyIndex (pushHistory_img newState img))
    with (length (history (pushHistory_img newState img)) - 1).
  rewrite pushHistory_img_length. lia.
Qed.

Lemma pushHistory_img_at_cursor :
  forall newState img,
    nth_error (history (pushHistory_img newState img))
              (historyIndex (pushHistory_img newState img)) =
    Some (newHistoryItem newState img).
Proof.
  intros newState img. rewrite pushHistory_img_cursor. simpl.
  rewrite nth_error_app2; rewrite length_firstn; [|lia].
  rewrite Nat.sub_diag. reflexivity.
Qed.

(** Entries at or below the old cursor survive a commit. *)
Lemma pushHistory_img_prefix :
  forall newState img k,
    k <= historyIndex img -> k < length (history img) ->
    nth_error (history (pushHistory_img newState img)) k =
    nth_error (history img) k.
Proof.
  intros newState img k Hk Hlen. simpl.
  rewrite nth_error_app1 by (rewrite length_firstn; lia).
  rewrite nth_error_firstn.
  destruct (Nat.ltb_spec k (historyIndex img + 1)); [reflexivity|lia].
Qed.

Lemma redo_img_at_end :
  forall img,
    length (history img) - 1 <= historyIndex img -> redo_img img = Some img.
Proof.
  intros img H. unfold redo_img.
  destruct (Nat.leb_spec (length (history img) - 1) (historyIndex img)); [reflexivity|lia].
Qed.

Lemma undo_img_at_start :
  forall img, historyIndex img = 0 -> undo_img img = Some img.
Proof.
  intros img H. unfold undo_img. rewrite H. reflexivity.
Qed.

Lemma pushHistory_img_visible :
  forall newState img,
    suppliesImage newState = true ->
    visible (pushHistory_img newState img) = newHistoryItem newState img.
Proof.
  intros [c a f] img H. unfold suppliesImage in H. simpl in H.
  unfold visible, newHistoryItem. simpl.
  destruct c as [[c|]|]; [reflexivity|discriminate|reflexivity].
Qed.

(** ** The commit operation *)

(** C1.  [pushHistory newState imageId] rewrites every session whose [id] is
    [imageId], and no other.  For such a session the new history is the old
    one cut to positions [0 .. historyIndex] followed by one entry; each
    field of that entry is the value [newState] supplies ([null] counting as
    not supplied) and otherwise the session's visible value; the cursor is
    the last position and holds that entry, which is what the session then
    shows (unless [newState] carried a [null] image).  Whatever lay beyond
    the old cursor is gone: the new length is
    [min (historyIndex + 1) length + 1], which is [historyIndex + 2] after
    an undo, and [redo] does nothing. *)
Theorem pushHistory_truncates_and_appends :
  forall newState imageId st,
    Forall2
      (fun img img' =>
         if String.eqb (id img) imageId then
           exists entry,
             history img' =
               firstn (historyIndex img + 1) (history img) ++ [entry]
             /\ h_current entry =
                  match p_current newState with
                  | Some (Some c) => Some c
                  | _ => current img
                  end
             /\ h_adjustments entry =
                  match p_adjustments newState with
                  | Some a => a
                  | None => adjustments img
                  end
             /\ h_filter entry =
                  match p_filter newState with
                  | Some f => f
                  | None => filter img
                  end
             /\ historyIndex img' = length (history img') - 1
             /\ nth_error (history img') (historyIndex img') = Some entry
             /\ length (history img') =
                  Nat.min (historyIndex img + 1) (length (history img)) + 1
             /\ (historyIndex img < length (history img) ->
                 length (history img') = historyIndex img + 2)
             /\ redo_img img' = Some img'
             /\ (suppliesImage newState = true -> visible img' = entry)
         else img' = img)
      (images st) (images (pushHistory newState imageId st)).
Proof.
  intros newState imageId st. unfold pushHistory. simpl.
  apply Forall2_mapMatching. intros img.
  destruct (String.eqb (id img) imageId); [|reflexivity].
  exists (newHistoryItem newState img).
  pose proof (pushHistory_img_length newState img) as Hlen.
  repeat split.
  - apply pushHistory_img_at_cursor.
  - exact Hlen.
  - intros Hin. rewrite Hlen. lia.
  - apply redo_img_at_end.
    change (historyIndex (pushHistory_img newState img))
      with (length (history (pushHistory_img newState img)) - 1).
    lia.
  - apply pushHistory_img_visible.
Qed.

(** ** Slider updates *)

(** C4.  [updateAdjustment key value] leaves every session's history list
    and cursor as they were, and with them its image, filter and identity;
    the rest of the component state is untouched too.  The active session's
    adjustments become the old ones with [key] set to [value]. *)
Theorem updateAdjustment_keeps_history :
  forall key value st,
    let st' := updateAdjustment key value st in
    Forall2
      (fun img img' =>
         history img' = history img
         /\ historyIndex img' = historyIndex img
         /\ length (history img') = length (history img)
         /\ current img' = current img
         /\ filter img' = filter img
         /\ id img' = id img
         /\ original img' = original img
         /\ thumbnail img' = thumbnail img
         /\ mimeType img' = mimeType img
         /\ name img' = name img
         /\ (adjustments img' = adjustments img
             \/ adjustments img' = setAdjustment key value (adjustments img)))
      (images st) (images st')
    /\ activeImageId st' = activeImageId st
    /\ processing st' = processing st
    /\ selectedBgColor st' = selectedBgColor st
    /\ customBgImage st' = customBgImage st
    /\ cropConfig st' = cropConfig st
    /\ activeImage st' =
       option_map (updateAdjustment_img key value) (activeImage st).
Proof.
  intros key value st. unfold updateAdjustment.
  destruct (activeImage st) as [a|] eqn:Ha; cbv zeta.
  - split.
    + simpl. apply Forall2_mapMatching. intros img.
      destruct (String.eqb (id img) (id a)); simpl; intuition.
    + repeat split.
      unfold activeImage in *. simpl.
      destruct (activeImageId st) as [aid|]; [|discriminate].
      simpl.
      assert (Hid : String.eqb (id a) aid = true).
      { apply find_some in Ha. tauto. }
      apply String.eqb_eq in Hid. subst aid.
      clear -Ha. induction (images st) as [|img l IH]; [discriminate|].
      simpl in *.
      destruct (String.eqb (id img) (id a)) eqn:E.
      * inversion Ha; subst. simpl. rewrite String.eqb_refl. reflexivity.
      * rewrite E. auto.
  - split; [apply Forall2_same; intros; intuition|].
    repeat split. simpl. rewrite Ha. reflexivity.
Qed.

(** ** Filter chains *)

(** C10.  With the [Blur] preset both filter chains are the ones of
    [Normal]: the four adjustment terms and nothing else, in the preview
    string ([getCssFilterString]) and in the export string
    ([generateFinalImage]). *)
Theorem blur_preset_adds_no_term :
  forall adj,
    getCssFilterString adj FilterType.BLUR =
      getCssFilterString adj FilterType.NONE
    /\ exportFilterString adj FilterType.BLUR =
         exportFilterString adj FilterType.NONE
    /\ exportFilters adj FilterType.BLUR = adjustmentTerms adj
    /\ getCssFilterString adj FilterType.BLUR =
         String.append (String.concat " " (adjustmentTerms adj)) " ".
Proof.
  intros adj. unfold getCssFilterString, exportFilterString, exportFilters.
  unfold appendIf, pushIf. simpl FilterType.eqb. cbv iota.
  repeat split.
Qed.

(** ** The history invariant *)

Lemma pushHistory_img_snapshot :
  forall newState img,
    suppliesImage newState = true ->
    snapshot_invariant (pushHistory_img newState img).
Proof.
  intros newState img H. split.
  - rewrite pushHistory_img_cursor, pushHistory_img_length. lia.
  - rewrite pushHistory_img_at_cursor, pushHistory_img_visible; auto.
Qed.

Lemma restore_snapshot :
  forall img entry k,
    nth_error (history img) k = Some entry ->
    snapshot_invariant (restore entry k img).
Proof.
  intros img [c a f] k H. split; simpl.
  - apply nth_error_Some. rewrite H. discriminate.
  - exact H.
Qed.

Lemma snapshot_cursor :
  forall img, snapshot_invariant img -> cursor_invariant img.
Proof.
  intros img [Hlt Hnth]. split; [exact Hlt|].
  exists (visible img). auto.
Qed.

(** On a session whose cursor is a position of its history, [undo] and
    [redo] return: either the session as it is, or it rewound to an entry
    of its history. *)
Lemma undo_img_cases :
  forall img,
    historyIndex img < length (history img) ->
    (historyIndex img = 0 /\ undo_img img = Some img)
    \/ (exists entry,
          0 < historyIndex img
          /\ nth_error (history img) (historyIndex img - 1) = Some entry
          /\ undo_img img = Some (restore entry (historyIndex img - 1) img)).
Proof.
  intros img Hlt. unfold undo_img.
  destruct (Nat.leb_spec (historyIndex img) 0) as [H0|H0].
  - left. split; [lia|reflexivity].
  - right.
    destruct (nth_error (history img) (historyIndex img - 1)) as [entry|] eqn:E.
    + exists entry. auto.
    + apply nth_error_None in E. lia.
Qed.

Lemma redo_img_cases :
  forall img,
    historyIndex img < length (history img) ->
    (historyIndex img = length (history img) - 1 /\ redo_img img = Some img)
    \/ (exists entry,
          historyIndex img + 1 < length (history img)
          /\ nth_error (history img) (historyIndex img + 1) = Some entry
          /\ redo_img img = Some (restore entry (historyIndex img + 1) img)).
Proof.
  intros img Hlt. unfold redo_img.
  destruct (Nat.leb_spec (length (history img) - 1) (historyIndex img)) as [H0|H0].
  - left. split; [lia|reflexivity].
  - right.
    destruct (nth_error (history img) (historyIndex img + 1)) as [entry|] eqn:E.
    + exists entry. repeat split; auto. lia.
    + apply nth_error_None in E. lia.
Qed.

Lemma session_step_cursor :
  forall img img',
    session_step img img' -> cursor_invariant img -> cursor_invariant img'.
Proof.
  intros img img' Hstep Hinv. destruct Hstep as [p img H|img img' H|img img' H|k v img].
  - apply snapshot_cursor, pushHistory_img_snapshot, H.
  - destruct (undo_img_cases img (proj1 Hinv)) as [[_ E]|[entry [_ [Hn E]]]];
      rewrite E in H; inversion H; subst; auto.
    apply snapshot_cursor, restore_snapshot, Hn.
  - destruct (redo_img_cases img (proj1 Hinv)) as [[_ E]|[entry [_ [Hn E]]]];
      rewrite E in H; inversion H; subst; auto.
    apply snapshot_cursor, restore_snapshot, Hn.
  - exact Hinv.
Qed.

Lemma session_reachable_cursor :
  forall img, session_reachable img -> cursor_invariant img.
Proof.
  intros img H. induction H as [rid fileName fileType base64|img img' _ IH Hstep].
  - split; simpl; [lia|]. eexists. split; [reflexivity|]. auto.
  - eapply session_step_cursor; eauto.
Qed.

(** C2, as stated, fails: upload one photo and move the brightness slider to
    150.  The session is a reachable one, in a reachable state of the event
    loop, and the entry at its cursor still holds brightness 100 while the
    session shows 150. *)
Lemma slider_update_leaves_snapshot_behind :
  let st := updateAdjustment Kbrightness 150 sampleApp in
  let img := updateAdjustment_img Kbrightness 150 sampleSession in
  activeImage st = Some img
  /\ reachable {| app := st; inflight := [] |}
  /\ session_reachable img
  /\ option_map h_adjustments (nth_error (history img) (historyIndex img))
     = Some DEFAULT_ADJUSTMENTS
  /\ brightness (adjustments img) = 150%Z
  /\ ~ snapshot_invariant img.
Proof.
  cbv zeta. split; [reflexivity|]. split.
  { apply (reachable_step (UpdateAdjustment Kbrightness 150)
             {| app := sampleApp; inflight := [] |}); [|reflexivity].
    apply (reachable_step (FileLoaded sampleRead "k3x9" samplePhoto)
             initialSys); [|reflexivity].
    apply reachable_init. }
  split.
  { eapply session_stepped; [apply session_created|apply step_adjust]. }
  split; [reflexivity|]. split; [reflexivity|].
  intros [_ H]. simpl in H. discriminate H.
Qed.

(** C2, amended.  In every reachable session state the cursor is a position
    of the history, and the entry there has the visible image and the
    visible filter.  Its adjustments are the visible ones right after a
    commit and after an undo or redo that moves the cursor; undo and redo
    always return. *)
Theorem reachable_session_cursor_invariant :
  forall img,
    session_reachable img ->
    historyIndex img < length (history img)
    /\ (exists entry,
          nth_error (history img) (historyIndex img) = Some entry
          /\ h_current entry = current img
          /\ h_filter entry = filter img)
    /\ (forall newState,
          suppliesImage newState = true ->
          snapshot_invariant (pushHistory_img newState img))
    /\ (exists img',
          undo_img img = Some img'
          /\ (historyIndex img' <> historyIndex img -> snapshot_invariant img'))
    /\ (exists img',
          redo_img img = Some img'
          /\ (historyIndex img' <> historyIndex img -> snapshot_invariant img')).
Proof.
  intros img Hreach.
  destruct (session_reachable_cursor img Hreach) as [Hlt Hentry].
  split; [exact Hlt|]. split; [exact Hentry|]. split.
  - intros newState H. apply pushHistory_img_snapshot, H.
  - split.
    + destruct (undo_img_cases img Hlt) as [[_ E]|[entry [_ [Hn E]]]];
        rewrite E; eexists; split; try reflexivity.
      * intros Hne. congruence.
      * intros _. apply restore_snapshot, Hn.
    + destruct (redo_img_cases img Hlt) as [[_ E]|[entry [_ [Hn E]]]];
        rewrite E; eexists; split; try reflexivity.
      * intros Hne. congruence.
      * intros _. apply restore_snapshot, Hn.
Qed.

Lemma reachable_session_cursor_invariant_witness :
  session_reachable (updateAdjustment_img Kbrightness 150 sampleSession)
  /\ cursor_invariant (updateAdjustment_img Kbrightness 150 sampleSession).
Proof.
  assert (Hreach :
            session_reachable
              (updateAdjustment_img Kbrightness 150 sampleSession)).
  { eapply session_stepped; [apply session_created|apply step_adjust]. }
  split; [exact Hreach|].
  destruct (reachable_session_cursor_invariant _ Hreach) as [Hlt [Hentry _]].
  split; [exact Hlt|exact Hentry].
Defined.

(** ** Undo and redo over a run of commits *)

Lemma ImageState_ext :
  forall a b,
    same_identity a b -> visible a = visible b ->
    history a = history b -> historyIndex a = historyIndex b -> a = b.
Proof.
  intros [] [] (H1 & H2 & H3 & H4 & H5) Hv Hh Hi.
  unfold visible in Hv. simpl in *. inversion Hv. subst. reflexivity.
Qed.

Lemma same_identity_refl : forall a, same_identity a a.
Proof. intros a. repeat split. Qed.


Lemma same_identity_sym :
  forall a b, same_identity a b -> same_identity b a.
Proof.
  unfold same_identity. intros a b H. decompose [and] H. repeat split; congruence.
Qed.

Lemma pushHistory_img_at_end :
  forall newState img,
    at_end img ->
    history (pushHistory_img newState img) =
      history img ++ [newHistoryItem newState img]
    /\ at_end (pushHistory_img newState img).
Proof.
  unfold at_end. intros newState img H. split.
  - simpl. rewrite H, firstn_all. reflexivity.
  - rewrite pushHistory_img_cursor, pushHistory_img_length. lia.
Qed.


Lemma restore_same_identity :
  forall entry k img, same_identity img (restore entry k img).
Proof. intros. repeat split. Qed.

(** [k] undos from cursor [k] reach the first entry. *)
Lemma undos_to_start :
  forall k img,
    historyIndex img = k -> k < length (history img) ->
    exists img',
      undos k img = Some img'
      /\ history img' = history img
      /\ historyIndex img' = 0
      /\ same_identity img img'
      /\ (0 < k -> nth_error (history img) 0 = Some (visible img'))
      /\ (k = 0 -> img' = img).
Proof.
  induction k as [|k IH]; intros img Hk Hlt.
  - exists img. simpl.
    split; [reflexivity|]. split; [reflexivity|]. split; [exact Hk|].
    split; [apply same_identity_refl|]. split; [lia|reflexivity].
  - simpl. rewrite <- Hk in Hlt.
    destruct (undo_img_cases img Hlt) as [[H0 _]|[entry [Hpos [Hn E]]]]; [lia|].
    rewrite E. replace (historyIndex img - 1) with k in * by lia.
    destruct (IH (restore entry k img)) as (img' & H1 & H2 & H3 & H4 & H5 & H6);
      [reflexivity|simpl; lia|].
    exists img'. simpl in H2, H5.
    split; [exact H1|]. split; [exact H2|]. split; [exact H3|].
    split; [exact H4|]. split; [|discriminate].
    intros _. destruct k as [|k'].
    + rewrite (H6 eq_refl).
      transitivity (Some entry); [exact Hn|destruct entry; reflexivity].
    + apply H5. lia.
Qed.



(** ** The crop rectangle *)







(** With the ratios the crop menu offers, an image that already has the
    ratio keeps its whole area; so does the 1000 by 700 image cropped to
    4:3, up to the rounding of [700 * (4 / 3)]. *)
Lemma cropRect_menu_examples :
  cropRect 500 500 {| aspectRatio := Some 1%float; active := true |}
  = {| sx := 0; sy := 0; sWidth := 500; sHeight := 500 |}
  /\ cropRect 900 1600 {| aspectRatio := Some (9 / 16)%float; active := true |}
     = {| sx := 0; sy := 0; sWidth := 900; sHeight := 1600 |}
  /\ cropRect 1600 900 {| aspectRatio := Some (16 / 9)%float; active := true |}
     = {| sx := 0; sy := 0; sWidth := 1600; sHeight := 900 |}
  /\ cropRect 800 600 {| aspectRatio := Some (4 / 3)%float; active := true |}
     = {| sx := 0; sy := 0; sWidth := 800; sHeight := 600 |}
  /\ sWidth (cropRect 1000 700
               {| aspectRatio := Some (4 / 3)%float; active := true |})
     = (700 * (4 / 3))%float
  /\ PrimFloat.ltb 933
       (sWidth (cropRect 1000 700
                  {| aspectRatio := Some (4 / 3)%float; active := true |}))
     = true
  /\ PrimFloat.ltb
       (sWidth (cropRect 1000 700
                  {| aspectRatio := Some (4 / 3)%float; active := true |}))
       934
     = true.
Proof.
  repeat split; vm_compute; reflexivity.
Qed.

(** ** The model invocation adapter *)

(** C6, as stated, fails in its last clause: two [ReplaceBackground]
    invocations with the same inputs present (a colour string, no secondary
    image) but different colour texts get different instructions. *)
Lemma colour_text_reaches_instruction :
  let white := {| backgroundColor := Some "#ffffff"; backgroundImage := None |} in
  let black := {| backgroundColor := Some "#000000"; backgroundImage := None |} in
  truthy (backgroundImage white) = truthy (backgroundImage black)
  /\ truthy (backgroundColor white) = truthy (backgroundColor black)
  /\ promptOf (contents (configure (Some "AAAA") "image/png"
                                   EditMode.REPLACE_BG white))
     <> promptOf (contents (configure (Some "AAAA") "image/png"
                                      EditMode.REPLACE_BG black)).
Proof.
  cbv zeta. split; [reflexivity|]. split; [reflexivity|].
  intros H. vm_compute in H. discriminate H.
Qed.

(** C6, amended.  For [ReplaceBackground]:
    - with a secondary image present (a non-empty string) the model is
      ['gemini-3-pro-image-preview'], the request carries both images and
      the compositing instruction, which names the first and the second
      image, whether or not a colour string is present;
    - otherwise, with a colour string present, the model is the default one
      and the instruction is the coloured-background one quoting that
      string;
    - otherwise the instruction is the scenic-background one.
    For every kind, the model is fixed by the kind and by whether a
    secondary image is present, and the model, the instruction and the
    output configuration are fixed by the kind, by that presence and by the
    colour string: no image bytes and no MIME type enter them. *)
Theorem replace_background_selection :
  forall imageData mimeType options,
    let request := configure imageData mimeType EditMode.REPLACE_BG options in
    (truthy (backgroundImage options) = true ->
     model request = "gemini-3-pro-image-preview"
     /\ promptOf (contents request) = PROMPT_COMPOSITE
     /\ includes "first image" PROMPT_COMPOSITE = true
     /\ includes "second image" PROMPT_COMPOSITE = true
     /\ exists bgMime bgData,
          contents request =
            [InlineDataPart (Some mimeType) imageData;
             InlineDataPart bgMime bgData;
             TextPart PROMPT_COMPOSITE])
    /\ (truthy (backgroundImage options) = false ->
        truthy (backgroundColor options) = true ->
        exists color,
          backgroundColor options = Some color
          /\ model request = "gemini-2.5-flash-image"
          /\ promptOf (contents request) = PROMPT_COLOR color)
    /\ (truthy (backgroundImage options) = false ->
        truthy (backgroundColor options) = false ->
        model request = "gemini-2.5-flash-image"
        /\ promptOf (contents request) = PROMPT_SCENIC)
    /\ (forall mode imageData' mimeType' options',
          truthy (backgroundImage options') = truthy (backgroundImage options) ->
          model (configure imageData' mimeType' mode options') =
            model (configure imageData mimeType mode options))
    /\ (forall mode imageData' mimeType' options',
          truthy (backgroundImage options') = truthy (backgroundImage options) ->
          backgroundColor options' = backgroundColor options ->
          promptOf (contents (configure imageData' mimeType' mode options')) =
            promptOf (contents (configure imageData mimeType mode options))
          /\ imageConfig (configure imageData' mimeType' mode options') =
               imageConfig (configure imageData mimeType mode options)).
Proof.
  intros imageData mimeType options request. unfold request.
  split; [|split; [|split; [|split]]].
  - intros Hbg. unfold configure. rewrite Hbg. simpl.
    repeat split. eauto.
  - intros Hbg Hcol. unfold configure. rewrite Hbg, Hcol. simpl.
    destruct (backgroundColor options) as [color|]; [|discriminate].
    exists color. repeat split.
  - intros Hbg Hcol. unfold configure. rewrite Hbg, Hcol. simpl. split; reflexivity.
  - intros mode imageData' mimeType' options' Hbg.
    destruct mode; try reflexivity.
    unfold configure. rewrite Hbg.
    destruct (truthy (backgroundImage options)); [reflexivity|].
    destruct (truthy (backgroundColor options'));
      destruct (truthy (backgroundColor options)); reflexivity.
  - intros mode imageData' mimeType' options' Hbg Hcol.
    destruct mode; try (split; reflexivity).
    unfold configure. rewrite Hbg, Hcol.
    destruct (truthy (backgroundImage options)); [split; reflexivity|].
    destruct (truthy (backgroundColor options)); split; reflexivity.
Qed.

(** What [handleAIEdit] does to the sessions once the call has succeeded
    with [resultBase64]: a commit of that image on the sessions with the
    captured [id]. *)
Lemma handleAIEdit_resume_ok :
  forall call resultBase64 st,
    Forall2
      (fun img img' =>
         if String.eqb (id img) (callImageId call) then
           history img' =
             firstn (historyIndex img + 1) (history img)
             ++ [ {| h_current := Some resultBase64;
                     h_adjustments := adjustments img;
                     h_filter := filter img |} ]
           /\ historyIndex img' = length (history img') - 1
           /\ current img' = Some resultBase64
           /\ adjustments img' = adjustments img
           /\ filter img' = filter img
           /\ (at_end img ->
               history img' =
                 history img
                 ++ [ {| h_current := Some resultBase64;
                         h_adjustments := adjustments img;
                         h_filter := filter img |} ])
         else img' = img)
      (images st) (images (handleAIEdit_resume call (Ok resultBase64) st)).
Proof.
  intros call resultBase64 st. simpl.
  apply Forall2_mapMatching. intros img.
  destruct (String.eqb (id img) (callImageId call)); [|reflexivity].
  repeat split.
  intros Hend.
  exact (proj1 (pushHistory_img_at_end
                  {| p_current := Some (Some resultBase64);
                     p_adjustments := None; p_filter := None |} img Hend)).
Qed.

(** C7.  With a session active, showing an image, and no call outstanding,
    [handleAIEdit] with [RemoveBackground] makes exactly one outbound call,
    a [generateContent] request whose instruction contains "pure solid white
    background".  When that call succeeds with [resultBase64], every session
    with the active [id] gets one new entry after the entries up to its
    cursor (after all its entries when the cursor is at the end), holding
    [resultBase64] and the adjustments and filter the session showed; the
    session shows them too, and no other session changes. *)
Theorem remove_background_one_call_one_entry :
  forall host st a dataUrl,
    activeImage st = Some a ->
    current a = Some dataUrl ->
    isProcessing (processing st) = false ->
    (forall host' dataUrl' mimeType' options',
        exists request',
          fst (performImageEdit host' (Some dataUrl') mimeType'
                 EditMode.REMOVE_BG options')
            = [GenerateContent request']
          /\ includes "pure solid white background"
                      (promptOf (contents request')) = true)
    /\ exists request,
      fst (handleAIEdit host EditMode.REMOVE_BG st) = [GenerateContent request]
      /\ includes "pure solid white background" (promptOf (contents request))
         = true
      /\ forall resultBase64,
           settle host (generateContent host request) = Ok resultBase64 ->
           Forall2
             (fun img img' =>
                if String.eqb (id img) (id a) then
                  history img' =
                    firstn (historyIndex img + 1) (history img)
                    ++ [ {| h_current := Some resultBase64;
                            h_adjustments := adjustments img;
                            h_filter := filter img |} ]
                  /\ historyIndex img' = length (history img') - 1
                  /\ current img' = Some resultBase64
                  /\ adjustments img' = adjustments img
                  /\ filter img' = filter img
                  /\ (at_end img ->
                      history img' =
                        history img
                        ++ [ {| h_current := Some resultBase64;
                                h_adjustments := adjustments img;
                                h_filter := filter img |} ])
                else img' = img)
             (images st)
             (images (snd (handleAIEdit host EditMode.REMOVE_BG st))).
Proof.
  intros host st a dataUrl Ha Hcur Hproc. split.
  { intros host' dataUrl' mimeType' options'. eexists.
    split; reflexivity. }
  unfold handleAIEdit, handleAIEdit_begin. rewrite Ha, Hproc.
  unfold invoke, performImageEdit. cbn [callImage callMimeType callMode callOptions].
  rewrite Hcur. cbn [keySelection EditMode.eqb orb app fst snd].
  eexists. split; [reflexivity|]. split; [reflexivity|].
  intros resultBase64 Hok. rewrite Hok.
  exact (handleAIEdit_resume_ok
           {| callImageId := id a; callImage := Some dataUrl;
              callMimeType := mimeType a; callMode := EditMode.REMOVE_BG;
              callOptions :=
                {| backgroundColor := Some (selectedBgColor st);
                   backgroundImage := customBgImage st |} |}
           resultBase64
           (setProcessing
              {| isProcessing := true; error := None;
                 mode := Some EditMode.REMOVE_BG |} st)).
Qed.

Lemma remove_background_one_call_one_entry_witness :
  exists request,
    fst (handleAIEdit (sampleHost imageResponse) EditMode.REMOVE_BG sampleApp)
      = [GenerateContent request]
    /\ includes "pure solid white background" (promptOf (contents request))
       = true
    /\ option_map history
         (activeImage
            (snd (handleAIEdit (sampleHost imageResponse) EditMode.REMOVE_BG
                    sampleApp)))
       = Some [ {| h_current := Some samplePhoto;
                   h_adjustments := DEFAULT_ADJUSTMENTS;
                   h_filter := FilterType.NONE |};
                {| h_current := Some "data:image/png;base64,BBBB";
                   h_adjustments := DEFAULT_ADJUSTMENTS;
                   h_filter := FilterType.NONE |} ].
Proof.
  destruct (remove_background_one_call_one_entry
              (sampleHost imageResponse) sampleApp sampleSession samplePhoto
              eq_refl eq_refl eq_refl) as [_ [request [Hcall [Hprompt _]]]].
  exists request. split; [exact Hcall|]. split; [exact Hprompt|].
  reflexivity.
Defined.

(** ** Failed invocations *)

Lemma firstInlineData_none :
  forall ps,
    forallb (fun part => negb (hasInlineData part)) ps = true ->
    firstInlineData ps = "".
Proof.
  induction ps as [|part ps IH]; intros H; [reflexivity|].
  simpl in H. apply andb_prop in H. destruct H as [Hpart Hps].
  simpl. unfold hasInlineData in Hpart.
  destruct (inlineData part) as [blob|]; [|exact (IH Hps)].
  destruct (truthy (data blob)); [discriminate|exact (IH Hps)].
Qed.

(** A failure writes the processing state and nothing else. *)
Lemma handleAIEdit_resume_err :
  forall call message st,
    handleAIEdit_resume call (Err message) st =
    setProcessing
      {| isProcessing := false;
         error := Some (or_else message "Processing failed.");
         mode := None |} st.
Proof. reflexivity. Qed.

(** Where the response has a list of content parts: when none of them holds
    inline image data (text parts only, or no part at all) the adapter
    fails with the fixed message [NO_IMAGE_DATA], whatever the kind and the
    inputs.  When the adapter fails, with any message, [handleAIEdit]
    leaves the sessions as they were: the same list, so the same histories,
    cursors and visible states; it only lowers the processing flag and
    records the message (["Processing failed."] for an empty one) as the
    error. *)
Theorem text_only_response_fails_and_keeps_history :
  forall host response ps,
    contentParts response = Some ps ->
    forallb (fun part => negb (hasInlineData part)) ps = true ->
    settle host (Resolved response)
      = Err "No image data found in response. The model may have returned text only."
    /\ (forall dataUrl mimeType mode options,
          generateContent host
            (configure (stripBase64Prefix dataUrl) mimeType mode options)
            = Resolved response ->
          snd (performImageEdit host (Some dataUrl) mimeType mode options)
            = Err NO_IMAGE_DATA)
    /\ (forall call message st,
          let st' := handleAIEdit_resume call (Err message) st in
          images st' = images st
          /\ processing st' =
               {| isProcessing := false;
                  error := Some (or_else message "Processing failed.");
                  mode := None |}
          /\ activeImageId st' = activeImageId st
          /\ selectedBgColor st' = selectedBgColor st
          /\ customBgImage st' = customBgImage st
          /\ cropConfig st' = cropConfig st)
    /\ (forall host' mode st message,
          (forall st1 call,
             handleAIEdit_begin mode st = (st1, Some call) ->
             snd (invoke host' call) = Err message) ->
          images (snd (handleAIEdit host' mode st)) = images st)
    /\ (forall call st,
          error (processing (handleAIEdit_resume call (Err NO_IMAGE_DATA) st))
            = Some NO_IMAGE_DATA).
Proof.
  intros host response ps Hparts Hnone.
  assert (Hsettle : settle host (Resolved response) = Err NO_IMAGE_DATA).
  { unfold settle, outputImageBase64. unfold contentParts in Hparts.
    destruct (candidates response) as [[|candidate rest]|]; try discriminate.
    destruct (content candidate) as [c|]; [|discriminate].
    rewrite Hparts, (firstInlineData_none ps Hnone). reflexivity. }
  split; [exact Hsettle|]. split.
  { intros dataUrl mimeType mode options Hreply.
    unfold performImageEdit. simpl. rewrite Hreply. exact Hsettle. }
  split.
  { intros call message st. cbv zeta. rewrite handleAIEdit_resume_err.
    repeat split. }
  split.
  { intros host' mode st message Hfail. unfold handleAIEdit.
    destruct (handleAIEdit_begin mode st) as [st1 [call|]] eqn:Hbegin.
    - specialize (Hfail st1 call eq_refl).
      destruct (invoke host' call) as [events settled]. simpl in Hfail.
      subst settled. rewrite handleAIEdit_resume_err. simpl.
      unfold handleAIEdit_begin in Hbegin.
      destruct (activeImage st); [|discriminate].
      destruct (isProcessing (processing st)); [discriminate|].
      inversion Hbegin. reflexivity.
    - unfold handleAIEdit_begin in Hbegin.
      destruct (activeImage st); [|inversion Hbegin; reflexivity].
      destruct (isProcessing (processing st)); inversion Hbegin. reflexivity. }
  intros call st. reflexivity.
Qed.

Lemma text_only_response_fails_and_keeps_history_witness :
  settle (sampleHost textOnlyResponse) (Resolved textOnlyResponse)
    = Err "No image data found in response. The model may have returned text only."
  /\ images (snd (handleAIEdit (sampleHost textOnlyResponse)
                    EditMode.REMOVE_BG sampleApp))
     = images sampleApp.
Proof.
  destruct (text_only_response_fails_and_keeps_history
              (sampleHost textOnlyResponse) textOnlyResponse
              [ {| inlineData := None; partText := Some "I cannot do that." |} ]
              eq_refl eq_refl) as [Hsettle _].
  split; [exact Hsettle|reflexivity].
Defined.

(** C8, at a response the claim covers and the code mishandles.  A response
    whose [candidates] array is empty has no content part, so none with
    inline image data.  The guard of step 4 tests [response.candidates],
    which an empty array passes, and then reads [content] of
    [response.candidates[0]], which is [undefined]: the adapter fails with
    the engine's message for that [TypeError] (with ["Failed to process
    image"] when the message is empty), not with the fixed [NO_IMAGE_DATA].
    The other half of the claim holds there too: the sessions are left as
    they were. *)
Theorem empty_candidates_fail_with_type_error :
  forall host dataUrl mimeType mode options,
    generateContent host
      (configure (stripBase64Prefix dataUrl) mimeType mode options)
    = Resolved emptyCandidatesResponse ->
    contentParts emptyCandidatesResponse = None
    /\ snd (performImageEdit host (Some dataUrl) mimeType mode options)
       = Err (or_else (typeErrorMessage host "content")
                      "Failed to process image")
    /\ (typeErrorMessage host "content" <> NO_IMAGE_DATA ->
        snd (performImageEdit host (Some dataUrl) mimeType mode options)
        <> Err NO_IMAGE_DATA)
    /\ (forall call st,
          images (handleAIEdit_resume call
                    (snd (performImageEdit host (Some dataUrl) mimeType mode
                            options)) st)
          = images st).
Proof.
  intros host dataUrl mimeType mode options Hreply.
  assert (Hres : snd (performImageEdit host (Some dataUrl) mimeType mode
                        options)
                 = Err (or_else (typeErrorMessage host "content")
                                "Failed to process image")).
  { unfold performImageEdit. cbn [snd]. rewrite Hreply. reflexivity. }
  split; [reflexivity|]. split; [exact Hres|]. split.
  - intros Hdiff. rewrite Hres. unfold or_else.
    destruct (String.eqb (typeErrorMessage host "content") "");
      [discriminate|].
    intros E. inversion E. contradiction.
  - intros call st. rewrite Hres. reflexivity.
Qed.

(** [Remove Background] on the uploaded photo, answered with no candidate,
    under an engine that words the error as V8 does: the toast shows the
    [TypeError] text, and the session is as it was. *)
Lemma empty_candidates_fail_with_type_error_witness :
  snd (performImageEdit (sampleHost emptyCandidatesResponse) (Some samplePhoto)
         "image/png" EditMode.REMOVE_BG
         {| backgroundColor := Some "#ffffff"; backgroundImage := None |})
  = Err "Cannot read properties of undefined (reading 'content')"
  /\ error (processing (snd (handleAIEdit (sampleHost emptyCandidatesResponse)
                               EditMode.REMOVE_BG sampleApp)))
     = Some "Cannot read properties of undefined (reading 'content')"
  /\ images (snd (handleAIEdit (sampleHost emptyCandidatesResponse)
                    EditMode.REMOVE_BG sampleApp))
     = images sampleApp.
Proof.
  destruct (empty_candidates_fail_with_type_error
              (sampleHost emptyCandidatesResponse) samplePhoto "image/png"
              EditMode.REMOVE_BG
              {| backgroundColor := Some "#ffffff"; backgroundImage := None |}
              eq_refl) as (_ & Hres & _ & _).
  split; [exact Hres|]. split; reflexivity.
Defined.

(** ** The single-flight gate *)

Lemma handleAIEdit_begin_busy :
  forall mode st,
    isProcessing (processing st) = true ->
    handleAIEdit_begin mode st = (st, None).
Proof.
  intros mode st H. unfold handleAIEdit_begin. rewrite H.
  destruct (activeImage st); reflexivity.
Qed.

(** [handleAIEdit_begin] either does nothing, or finds the flag down, raises
    it and issues one call. *)
Lemma handleAIEdit_begin_cases :
  forall mode st,
    handleAIEdit_begin mode st = (st, None)
    \/ (isProcessing (processing st) = false
        /\ exists st' call,
             handleAIEdit_begin mode st = (st', Some call)
             /\ isProcessing (processing st') = true).
Proof.
  intros mode st. unfold handleAIEdit_begin.
  destruct (activeImage st) as [a|]; [|left; reflexivity].
  destruct (isProcessing (processing st)); [left; reflexivity|].
  right. split; [reflexivity|]. eexists. eexists. split; reflexivity.
Qed.

Lemma handleAIEdit_resume_idle :
  forall call settled st,
    isProcessing (processing (handleAIEdit_resume call settled st)) = false.
Proof. intros call [resultBase64|message] st; reflexivity. Qed.

Lemma undo_processing :
  forall st st', undo st = Some st' -> processing st' = processing st.
Proof.
  intros st st' H. unfold undo in H.
  destruct (activeImage st) as [a|]; [|inversion H; reflexivity].
  destruct (historyIndex a <=? 0); [inversion H; reflexivity|].
  destruct (nth_error (history a) (historyIndex a - 1));
    inversion H; reflexivity.
Qed.

Lemma redo_processing :
  forall st st', redo st = Some st' -> processing st' = processing st.
Proof.
  intros st st' H. unfold redo in H.
  destruct (activeImage st) as [a|]; [|inversion H; reflexivity].
  destruct (length (history a) - 1 <=? historyIndex a);
    [inversion H; reflexivity|].
  destruct (nth_error (history a) (historyIndex a + 1));
    inversion H; reflexivity.
Qed.

Lemma readerOnload_processing :
  forall read rid result st,
    processing (readerOnload read rid result st) = processing st.
Proof.
  intros. unfold readerOnload.
  destruct (negb (String.eqb result "")); [|reflexivity].
  destruct (truthy (readActiveImageId read)); reflexivity.
Qed.

Lemma step_single_flight :
  forall a s s',
    step a s = Some s' -> single_flight s -> single_flight s'.
Proof.
  intros a s s' Hstep Hinv.
  assert (Hkeep : inflight s' = inflight s ->
                  processing (app s') = processing (app s) ->
                  single_flight s').
  { intros Hi Hp. unfold single_flight. rewrite Hi, Hp. exact Hinv. }
  destruct a as [read rid result|imageId| | |key value|f|value
                |dataUrl|value|kind|settled]; simpl in Hstep.
  - destruct (isImageFile (readFile read)); [|discriminate].
    inversion Hstep; subst. apply Hkeep; [reflexivity|].
    apply readerOnload_processing.
  - inversion Hstep; subst. apply Hkeep; reflexivity.
  - destruct (undo (app s)) as [st|] eqn:E; inversion Hstep; subst.
    apply Hkeep; [reflexivity|]. exact (undo_processing _ _ E).
  - destruct (redo (app s)) as [st|] eqn:E; inversion Hstep; subst.
    apply Hkeep; [reflexivity|]. exact (redo_processing _ _ E).
  - inversion Hstep; subst. apply Hkeep; [reflexivity|].
    simpl. unfold updateAdjustment. destruct (activeImage (app s)); reflexivity.
  - inversion Hstep; subst. apply Hkeep; [reflexivity|].
    simpl. unfold setFilter. destruct (activeImage (app s)); reflexivity.
  - inversion Hstep; subst. apply Hkeep; reflexivity.
  - inversion Hstep; subst. apply Hkeep; [reflexivity|].
    simpl. unfold handleBgUpload. destruct (String.eqb dataUrl ""); reflexivity.
  - inversion Hstep; subst. apply Hkeep; reflexivity.
  - destruct (handleAIEdit_begin_cases kind (app s))
      as [E|[Hidle [st' [call [E Hbusy]]]]];
      rewrite E in Hstep; inversion Hstep; subst.
    + apply Hkeep; reflexivity.
    + destruct Hinv as [[Hnone _]|[c [_ Hup]]]; [|congruence].
      right. exists call. simpl. rewrite Hnone. split; [reflexivity|exact Hbusy].
  - destruct (inflight s) as [|call rest] eqn:E; [discriminate|].
    inversion Hstep; subst. simpl.
    destruct Hinv as [[Hnone _]|[c [Hone _]]]; [congruence|].
    rewrite E in Hone. inversion Hone; subst. left. simpl.
    split; [reflexivity|apply handleAIEdit_resume_idle].
Qed.

Lemma reachable_single_flight : forall s, reachable s -> single_flight s.
Proof.
  intros s H. induction H as [|a s s' _ IH Hstep].
  - left. split; reflexivity.
  - exact (step_single_flight a s s' Hstep IH).
Qed.

(** C9.  In every reachable state of the event loop at most one call is
    outstanding, and one is outstanding exactly when the processing flag is
    up.  While the flag is up, [handleAIEdit] with any kind issues no call
    and makes no outbound call, and leaves the whole state, the sessions
    and the processing state included, as it was. *)
Theorem busy_gate_single_flight :
  forall s,
    reachable s ->
    length (inflight s) <= 1
    /\ (inflight s <> [] <-> isProcessing (processing (app s)) = true)
    /\ (isProcessing (processing (app s)) = true ->
        forall mode,
          handleAIEdit_begin mode (app s) = (app s, None)
          /\ step (AIEdit mode) s = Some s
          /\ forall host, handleAIEdit host mode (app s) = ([], app s)).
Proof.
  intros s Hreach.
  pose proof (reachable_single_flight s Hreach) as Hinv.
  split; [|split].
  - destruct Hinv as [[E _]|[call [E _]]]; rewrite E; simpl; lia.
  - destruct Hinv as [[E Hp]|[call [E Hp]]]; rewrite E, Hp; split;
      intros H; try congruence; try discriminate.
  - intros Hbusy mode.
    pose proof (handleAIEdit_begin_busy mode (app s) Hbusy) as E.
    split; [exact E|]. split.
    + simpl. rewrite E. destruct s; reflexivity.
    + intros host. unfold handleAIEdit. rewrite E. reflexivity.
Qed.

Lemma busy_gate_single_flight_witness :
  reachable {| app := setProcessing
                        {| isProcessing := true; error := None;
                           mode := Some EditMode.ENHANCE |} sampleApp;
               inflight :=
                 [ {| callImageId := "k3x9";
                      callImage := Some samplePhoto;
                      callMimeType := "image/png";
                      callMode := EditMode.ENHANCE;
                      callOptions :=
                        {| backgroundColor := Some "#ffffff";
                           backgroundImage := None |} |} ] |}
  /\ step (AIEdit EditMode.ANIME)
       {| app := setProcessing
                   {| isProcessing := true; error := None;
                      mode := Some EditMode.ENHANCE |} sampleApp;
          inflight :=
            [ {| callImageId := "k3x9";
                 callImage := Some samplePhoto;
                 callMimeType := "image/png";
                 callMode := EditMode.ENHANCE;
                 callOptions :=
                   {| backgroundColor := Some "#ffffff";
                      backgroundImage := None |} |} ] |}
     = Some {| app := setProcessing
                        {| isProcessing := true; error := None;
                           mode := Some EditMode.ENHANCE |} sampleApp;
               inflight :=
                 [ {| callImageId := "k3x9";
                      callImage := Some samplePhoto;
                      callMimeType := "image/png";
                      callMode := EditMode.ENHANCE;
                      callOptions :=
                        {| backgroundColor := Some "#ffffff";
                           backgroundImage := None |} |} ] |}.
Proof.
  assert (Hreach :
    reachable {| app := setProcessing
                          {| isProcessing := true; error := None;
                             mode := Some EditMode.ENHANCE |} sampleApp;
                 inflight :=
                   [ {| callImageId := "k3x9";
                        callImage := Some samplePhoto;
                        callMimeType := "image/png";
                        callMode := EditMode.ENHANCE;
                        callOptions :=
                          {| backgroundColor := Some "#ffffff";
                             backgroundImage := None |} |} ] |}).
  { apply (reachable_step (AIEdit EditMode.ENHANCE)
             {| app := sampleApp; inflight := [] |}); [|reflexivity].
    apply (reachable_step (FileLoaded sampleRead "k3x9" samplePhoto)
             initialSys); [|reflexivity].
    apply reachable_init. }
  split; [exact Hreach|].
  destruct (busy_gate_single_flight _ Hreach) as [_ [_ Hgate]].
  exact (proj1 (proj2 (Hgate eq_refl EditMode.ANIME))).
Defined.

(** ** The handlers and the sessions

    How the component-level handlers act on the sessions: on the active
    session as the per-session functions do, and, when identifiers are
    distinct, on no other. *)

Lemma find_map_same_id :
  forall (g : ImageState -> ImageState) aid l,
    (forall img, id (g img) = id img) ->
    find (fun img => String.eqb (id img) aid) (map g l) =
    option_map g (find (fun img => String.eqb (id img) aid) l).
Proof.
  intros g aid l Hg. induction l as [|img l IH]; [reflexivity|].
  simpl. rewrite Hg. destruct (String.eqb (id img) aid); [reflexivity|exact IH].
Qed.

Lemma activeImage_mapMatching :
  forall st a f,
    (forall img, id (f img) = id img) ->
    activeImage st = Some a ->
    activeImage (setImages (mapMatching (id a) f) st) = Some (f a).
Proof.
  intros st a f Hf Ha. unfold activeImage in *. simpl.
  destruct (activeImageId st) as [aid|]; [|discriminate].
  unfold mapMatching. rewrite find_map_same_id.
  - rewrite Ha. simpl. rewrite String.eqb_refl. reflexivity.
  - intros img. destruct (String.eqb (id img) (id a)); [apply Hf|reflexivity].
Qed.

Lemma pushHistory_active :
  forall newState st a,
    activeImage st = Some a ->
    activeImage (pushHistory newState (id a) st)
    = Some (pushHistory_img newState a).
Proof.
  intros newState st a Ha. unfold pushHistory.
  apply activeImage_mapMatching; [reflexivity|exact Ha].
Qed.

Lemma undo_active :
  forall st a,
    activeImage st = Some a ->
    option_map activeImage (undo st) = option_map Some (undo_img a).
Proof.
  intros st a Ha. unfold undo, undo_img. rewrite Ha.
  destruct (historyIndex a <=? 0); [simpl; congruence|].
  destruct (nth_error (history a) (historyIndex a - 1)) as [entry|];
    [|reflexivity].
  simpl. f_equal. apply activeImage_mapMatching; [reflexivity|exact Ha].
Qed.

Lemma redo_active :
  forall st a,
    activeImage st = Some a ->
    option_map activeImage (redo st) = option_map Some (redo_img a).
Proof.
  intros st a Ha. unfold redo, redo_img. rewrite Ha.
  destruct (length (history a) - 1 <=? historyIndex a); [simpl; congruence|].
  destruct (nth_error (history a) (historyIndex a + 1)) as [entry|];
    [|reflexivity].
  simpl. f_equal. apply activeImage_mapMatching; [reflexivity|exact Ha].
Qed.

Lemma same_id_same_session :
  forall l x y,
    NoDup (map id l) -> In x l -> In y l -> id x = id y -> x = y.
Proof.
  induction l as [|z l IH]; intros x y Hnd Hx Hy Hid; [contradiction|].
  simpl in Hnd. inversion Hnd as [|? ? Hnotin Hnd']; subst.
  destruct Hx as [Hx|Hx], Hy as [Hy|Hy]; subst.
  - reflexivity.
  - exfalso. apply Hnotin. rewrite Hid. apply in_map, Hy.
  - exfalso. apply Hnotin. rewrite <- Hid. apply in_map, Hx.
  - apply IH; assumption.
Qed.

Lemma Forall2_map_In :
  forall (R : ImageState -> ImageState -> Prop) g l,
    (forall img, In img l -> R img (g img)) -> Forall2 R l (map g l).
Proof.
  intros R g l. induction l as [|img l IH]; intros H; simpl; constructor.
  - apply H. left. reflexivity.
  - apply IH. intros x Hx. apply H. right. exact Hx.
Qed.

Lemma activeImage_In :
  forall st a, activeImage st = Some a -> In a (images st).
Proof.
  intros st a H. unfold activeImage in H.
  destruct (activeImageId st); [|discriminate].
  apply find_some in H. tauto.
Qed.

(** With distinct identifiers, mapping [f] over the sessions with the
    active [id] applies [f] to the active session and to nothing else. *)
Lemma mapMatching_active_only :
  forall (R : ImageState -> ImageState -> Prop) st a f,
    NoDup (map id (images st)) ->
    activeImage st = Some a ->
    R a (f a) ->
    Forall2 (fun img img' => img' = img \/ R img img')
            (images st) (mapMatching (id a) f (images st)).
Proof.
  intros R st a f Hnd Ha HR. unfold mapMatching.
  apply Forall2_map_In. intros img Hin.
  destruct (String.eqb (id img) (id a)) eqn:E; [|left; reflexivity].
  apply String.eqb_eq in E.
  rewrite (same_id_same_session _ img a Hnd Hin (activeImage_In st a Ha) E).
  right. exact HR.
Qed.

Lemma Forall2_unchanged :
  forall l : list ImageState,
    Forall2 (fun img img' => img' = img \/ session_step img img') l l.
Proof. intros l. apply Forall2_same. intros img. left. reflexivity. Qed.

Lemma mapMatching_steps :
  forall imageId f l,
    (forall img, session_step img (f img)) ->
    Forall2 (fun img img' => img' = img \/ session_step img img')
            l (mapMatching imageId f l).
Proof.
  intros imageId f l Hf. apply Forall2_mapMatching. intros img.
  destruct (String.eqb (id img) imageId); [right; apply Hf|left; reflexivity].
Qed.

(** One event of the loop, seen from the sessions: an upload appends a new
    session; any other event leaves each session as it is or takes it one
    session step further. *)
Lemma step_sessions :
  forall a s s',
    step a s = Some s' ->
    NoDup (map id (images (app s))) ->
    (exists read rid result,
        a = FileLoaded read rid result
        /\ images (app s') =
             images (app s) ++ [newImg rid (file_name (readFile read))
                                       (file_type (readFile read)) result])
    \/ Forall2 (fun img img' => img' = img \/ session_step img img')
               (images (app s)) (images (app s')).
Proof.
  intros a s s' Hstep Hnd.
  destruct a as [read rid result|imageId| | |key value|f|value
                |dataUrl|value|kind|settled]; simpl in Hstep.
  - destruct (isImageFile (readFile read)); [|discriminate].
    inversion Hstep; subst; clear Hstep. simpl. unfold readerOnload.
    destruct (negb (String.eqb result ""));
      [|right; apply Forall2_unchanged].
    left. exists read, rid, result. split; [reflexivity|].
    destruct (truthy (readActiveImageId read)); reflexivity.
  - inversion Hstep; subst. right. apply Forall2_unchanged.
  - right. unfold undo in Hstep.
    destruct (activeImage (app s)) as [a|] eqn:Ha;
      [|inversion Hstep; subst; apply Forall2_unchanged].
    destruct (historyIndex a <=? 0) eqn:E0;
      [inversion Hstep; subst; apply Forall2_unchanged|].
    destruct (nth_error (history a) (historyIndex a - 1)) as [entry|] eqn:En;
      [|discriminate].
    inversion Hstep; subst; clear Hstep. simpl.
    apply mapMatching_active_only; [exact Hnd|exact Ha|].
    apply step_undo. unfold undo_img. rewrite E0, En. reflexivity.
  - right. unfold redo in Hstep.
    destruct (activeImage (app s)) as [a|] eqn:Ha;
      [|inversion Hstep; subst; apply Forall2_unchanged].
    destruct (length (history a) - 1 <=? historyIndex a) eqn:E0;
      [inversion Hstep; subst; apply Forall2_unchanged|].
    destruct (nth_error (history a) (historyIndex a + 1)) as [entry|] eqn:En;
      [|discriminate].
    inversion Hstep; subst; clear Hstep. simpl.
    apply mapMatching_active_only; [exact Hnd|exact Ha|].
    apply step_redo. unfold redo_img. rewrite E0, En. reflexivity.
  - inversion Hstep; subst; clear Hstep. right. simpl. unfold updateAdjustment.
    destruct (activeImage (app s)) as [a|]; [|apply Forall2_unchanged].
    simpl. apply mapMatching_steps. intros img. apply step_adjust.
  - inversion Hstep; subst; clear Hstep. right. simpl. unfold setFilter.
    destruct (activeImage (app s)) as [a|]; [|apply Forall2_unchanged].
    simpl. apply mapMatching_steps. intros img. apply step_commit. reflexivity.
  - inversion Hstep; subst. right. apply Forall2_unchanged.
  - inversion Hstep; subst; clear Hstep. right. simpl. unfold handleBgUpload.
    destruct (String.eqb dataUrl ""); apply Forall2_unchanged.
  - inversion Hstep; subst. right. apply Forall2_unchanged.
  - right. unfold handleAIEdit_begin in Hstep.
    destruct (activeImage (app s)) as [a|];
      [|inversion Hstep; subst; apply Forall2_unchanged].
    destruct (isProcessing (processing (app s)));
      inversion Hstep; subst; apply Forall2_unchanged.
  - right. destruct (inflight s) as [|call rest]; [discriminate|].
    inversion Hstep; subst; clear Hstep. simpl.
    destruct settled as [resultBase64|message]; simpl.
    + apply mapMatching_steps. intros img. apply step_commit. reflexivity.
    + apply Forall2_unchanged.
Qed.

Lemma session_step_id :
  forall img img', session_step img img' -> id img' = id img.
Proof.
  intros img img' H. destruct H as [p img Hp|img img' H|img img' H|k v img];
    try reflexivity.
  - unfold undo_img in H. destruct (historyIndex img <=? 0).
    + inversion H. reflexivity.
    + destruct (nth_error (history img) (historyIndex img - 1));
        inversion H. reflexivity.
  - unfold redo_img in H.
    destruct (length (history img) - 1 <=? historyIndex img).
    + inversion H. reflexivity.
    + destruct (nth_error (history img) (historyIndex img + 1));
        inversion H. reflexivity.
Qed.

(** In a run with distinct identifiers every session of the component is a
    reachable session state, so the cursor invariant holds for each. *)
Lemma reachable_fresh_sessions :
  forall s,
    reachable_fresh s ->
    NoDup (map id (images (app s)))
    /\ Forall session_reachable (images (app s)).
Proof.
  intros s H. induction H as [|a s s' _ [Hnd Hall] Hfresh Hstep].
  - split; simpl; constructor.
  - destruct (step_sessions a s s' Hstep Hnd)
      as [(read & rid & result & Ea & Himgs)|Hrel].
    + subst a. simpl in Hfresh. rewrite Himgs. split.
      * rewrite map_app. simpl.
        apply NoDup_app; [exact Hnd|repeat constructor; intros []|].
        intros x Hx [Hrid|[]]. subst x. exact (Hfresh Hx).
      * apply Forall_app. split; [exact Hall|].
        constructor; [apply session_created|constructor].
    + clear Hstep Hfresh. revert Hnd Hall.
      induction Hrel as [|img img' l l' Hone Htail IH]; intros Hnd Hall;
        [split; constructor|].
      inversion Hall as [|? ? Himg Hrest]; subst.
      simpl in Hnd. inversion Hnd as [|? ? Hnotin Hnd']; subst.
      destruct (IH Hnd' Hrest) as [Hnd2 Hall2].
      assert (Hids : forall l0 l1,
                 Forall2 (fun i i' => i' = i \/ session_step i i') l0 l1 ->
                 map id l1 = map id l0).
      { intros l0 l1 HF. induction HF as [|x y l0 l1 Hxy _ IHF];
          [reflexivity|].
        simpl. rewrite IHF. f_equal.
        destruct Hxy as [E|Hs]; [subst; reflexivity|apply session_step_id, Hs]. }
      assert (Hid : id img' = id img).
      { destruct Hone as [E|Hs]; [subst; reflexivity|apply session_step_id, Hs]. }
      split.
      * simpl. constructor; [|exact Hnd2].
        rewrite Hid, (Hids l l'); assumption.
      * constructor; [|exact Hall2].
        destruct Hone as [E|Hs]; [subst; exact Himg|].
        eapply session_stepped; eauto.
Qed.

Lemma reachable_fresh_cursor :
  forall s,
    reachable_fresh s -> Forall cursor_invariant (images (app s)).
Proof.
  intros s H. destruct (reachable_fresh_sessions s H) as [_ Hall].
  eapply Forall_impl; [|exact Hall].
  intros img. apply session_reachable_cursor.
Qed.

(** ** The edges of the response extraction *)

(** The first part with inline data is the one returned. *)
Lemma firstInlineData_first :
  forall before blob payload after,
    forallb (fun part => negb (hasInlineData part)) before = true ->
    data blob = Some payload -> payload <> "" ->
    firstInlineData
      (before ++ {| inlineData := Some blob; partText := None |} :: after)
    = payload.
Proof.
  intros before blob payload after Hbefore Hdata Hne.
  induction before as [|part before IH]; simpl.
  - rewrite Hdata. simpl.
    destruct (String.eqb payload "") eqn:E; [|reflexivity].
    apply String.eqb_eq in E. contradiction.
  - simpl in Hbefore. apply andb_prop in Hbefore. destruct Hbefore as [Hp Hb].
    unfold hasInlineData in Hp.
    destruct (inlineData part) as [b|]; [|exact (IH Hb)].
    destruct (truthy (data b)); [discriminate|exact (IH Hb)].
Qed.

(** A response with no [candidates], or whose first candidate has no
    [content], or whose content has no [parts], fails with the fixed message
    too. *)
Lemma settle_without_parts :
  forall host response,
    (candidates response = None
     \/ exists candidate rest,
          candidates response = Some (candidate :: rest)
          /\ (content candidate = None
              \/ exists c, content candidate = Some c /\ parts c = None)) ->
    settle host (Resolved response) = Err NO_IMAGE_DATA.
Proof.
  intros host response [H|(candidate & rest & H & [Hc|(c & Hc & Hp)])];
    unfold settle, outputImageBase64; rewrite H; try reflexivity.
  - rewrite Hc. reflexivity.
  - rewrite Hc, Hp. reflexivity.
Qed.

(** A response whose [candidates] array is empty has no first candidate:
    reading its [content] raises, and the adapter fails with the engine's
    message for that [TypeError], or with its fallback when that is empty. *)
Lemma settle_empty_candidates :
  forall host,
    settle host (Resolved {| candidates := Some [] |})
    = Err (or_else (typeErrorMessage host "content") "Failed to process image").
Proof. reflexivity. Qed.

(** A rejected call surfaces its message, or the fallback. *)
Lemma settle_rejected :
  forall host message,
    settle host (Rejected message)
    = Err (or_else message "Failed to process image").
Proof. reflexivity. Qed.

(** A response with an image succeeds with a PNG data URL of the first
    payload. *)
Lemma settle_image :
  settle (sampleHost imageResponse) (Resolved imageResponse)
  = Ok "data:image/png;base64,BBBB".
Proof. reflexivity. Qed.

(** ** Sessions always show an image

    [current] is typed [string | null], but no handler ever stores [null]:
    the non-null assertions on [activeImage.current] hold in every reachable
    state. *)

Lemma In_firstn :
  forall (A : Type) n (l : list A) x, In x (firstn n l) -> In x l.
Proof.
  intros A n. induction n as [|n IH]; intros l x H; [contradiction|].
  destruct l as [|y l]; [contradiction|].
  simpl in H. destruct H as [H|H]; [left; exact H|right; apply IH, H].
Qed.

Lemma Forall_mapMatching :
  forall (P : ImageState -> Prop) imageId f l,
    (forall img, P img -> P (f img)) ->
    Forall P l -> Forall P (mapMatching imageId f l).
Proof.
  intros P imageId f l Hf Hl. induction Hl as [|img l Himg _ IH]; simpl;
    constructor; [|exact IH].
  destruct (String.eqb (id img) imageId); [apply Hf, Himg|exact Himg].
Qed.

Lemma pushHistory_img_showsImage :
  forall newState img,
    suppliesImage newState = true ->
    showsImage img -> showsImage (pushHistory_img newState img).
Proof.
  intros [c a f] img Hs [Hcur Hall]. unfold suppliesImage in Hs. simpl in Hs.
  assert (Hitem : h_current (newHistoryItem
                    {| p_current := c; p_adjustments := a; p_filter := f |} img)
                  <> None).
  { simpl. destruct c as [[c|]|]; [discriminate|discriminate Hs|exact Hcur]. }
  split.
  - simpl. destruct c as [[c|]|]; [discriminate|discriminate Hs|exact Hcur].
  - simpl history. apply Forall_app. split.
    + apply Forall_forall. intros entry Hin.
      apply In_firstn in Hin. rewrite Forall_forall in Hall. apply Hall, Hin.
    + constructor; [exact Hitem|constructor].
Qed.

Lemma restore_showsImage :
  forall a entry k img,
    showsImage a -> nth_error (history a) k = Some entry ->
    showsImage img -> showsImage (restore entry k img).
Proof.
  intros a entry k img [_ Ha] Hn [_ Hall]. split; [|exact Hall].
  simpl. rewrite Forall_forall in Ha. apply Ha.
  exact (nth_error_In _ _ Hn).
Qed.

Lemma reachable_showsImage :
  forall s, reachable s -> Forall showsImage (images (app s)).
Proof.
  intros s H. induction H as [|a s s' _ IH Hstep]; [constructor|].
  assert (Hactive : forall x, activeImage (app s) = Some x -> showsImage x).
  { intros x Hx. rewrite Forall_forall in IH.
    apply IH, activeImage_In, Hx. }
  destruct a as [read rid result|imageId| | |key value|f|value
                |dataUrl|value|kind|settled]; simpl in Hstep.
  - destruct (isImageFile (readFile read)); [|discriminate].
    inversion Hstep; subst; clear Hstep. simpl. unfold readerOnload.
    destruct (negb (String.eqb result "")) eqn:Hres; [|exact IH].
    assert (Hnew : Forall showsImage
                     (images (app s)
                      ++ [newImg rid (file_name (readFile read))
                                 (file_type (readFile read)) result])).
    { apply Forall_app. split; [exact IH|].
      constructor; [|constructor].
      split; simpl; [discriminate|].
      constructor; [discriminate|constructor]. }
    destruct (truthy (readActiveImageId read)); exact Hnew.
  - inversion Hstep; subst. exact IH.
  - unfold undo in Hstep.
    destruct (activeImage (app s)) as [a|] eqn:Ha;
      [|inversion Hstep; subst; exact IH].
    destruct (historyIndex a <=? 0); [inversion Hstep; subst; exact IH|].
    destruct (nth_error (history a) (historyIndex a - 1)) as [entry|] eqn:En;
      [|discriminate].
    inversion Hstep; subst; clear Hstep. simpl.
    apply Forall_mapMatching; [|exact IH].
    intros img. exact (restore_showsImage a entry _ img (Hactive a eq_refl) En).
  - unfold redo in Hstep.
    destruct (activeImage (app s)) as [a|] eqn:Ha;
      [|inversion Hstep; subst; exact IH].
    destruct (length (history a) - 1 <=? historyIndex a);
      [inversion Hstep; subst; exact IH|].
    destruct (nth_error (history a) (historyIndex a + 1)) as [entry|] eqn:En;
      [|discriminate].
    inversion Hstep; subst; clear Hstep. simpl.
    apply Forall_mapMatching; [|exact IH].
    intros img. exact (restore_showsImage a entry _ img (Hactive a eq_refl) En).
  - inversion Hstep; subst; clear Hstep. simpl. unfold updateAdjustment.
    destruct (activeImage (app s)) as [a|]; [|exact IH].
    simpl. apply Forall_mapMatching; [|exact IH].
    intros img Himg. exact Himg.
  - inversion Hstep; subst; clear Hstep. simpl. unfold setFilter.
    destruct (activeImage (app s)) as [a|]; [|exact IH].
    simpl. apply Forall_mapMatching; [|exact IH].
    intros img. apply pushHistory_img_showsImage. reflexivity.
  - inversion Hstep; subst. exact IH.
  - inversion Hstep; subst; clear Hstep. simpl. unfold handleBgUpload.
    destruct (String.eqb dataUrl ""); exact IH.
  - inversion Hstep; subst. exact IH.
  - unfold handleAIEdit_begin in Hstep.
    destruct (activeImage (app s)) as [a|];
      [|inversion Hstep; subst; exact IH].
    destruct (isProcessing (processing (app s)));
      inversion Hstep; subst; exact IH.
  - destruct (inflight s) as [|call rest]; [discriminate|].
    inversion Hstep; subst; clear Hstep. simpl.
    destruct settled as [resultBase64|message]; simpl; [|exact IH].
    apply Forall_mapMatching; [|exact IH].
    intros img. apply pushHistory_img_showsImage. reflexivity.
Qed.

(** So the image [handleAIEdit] hands to the adapter is never [null]. *)
Lemma reachable_active_current :
  forall s a,
    reachable s -> activeImage (app s) = Some a ->
    exists dataUrl, current a = Some dataUrl.
Proof.
  intros s a Hreach Ha.
  pose proof (reachable_showsImage s Hreach) as Hall.
  rewrite Forall_forall in Hall.
  destruct (Hall a (activeImage_In _ _ Ha)) as [Hcur _].
  destruct (current a) as [dataUrl|]; [eauto|contradiction].
Qed.

(** * Further properties *)

(** ** Data URLs *)

Lemma string_app_assoc :
  forall a b c : string,
    String.append (String.append a b) c = String.append a (String.append b c).
Proof.
  induction a as [|x a IH]; intros b c; simpl; [reflexivity|].
  rewrite IH. reflexivity.
Qed.

Lemma split_nonempty : forall c s, split c s <> [].
Proof.
  intros c s. destruct s as [|a rest]; simpl; [discriminate|].
  destruct (Ascii.eqb a c); [discriminate|].
  destruct (split c rest); discriminate.
Qed.

(** Splitting at the first separator. *)
Lemma split_first :
  forall c a b,
    noChar c a = true ->
    split c (String.append a (String c b)) = a :: split c b.
Proof.
  intros c a b. induction a as [|x a IH]; intros H; simpl.
  - rewrite Ascii.eqb_refl. reflexivity.
  - simpl in H. apply andb_prop in H. destruct H as [Hx Ha].
    apply negb_true_iff in Hx. rewrite Hx, (IH Ha). reflexivity.
Qed.

Lemma split_none :
  forall c a, noChar c a = true -> split c a = [a].
Proof.
  intros c a. induction a as [|x a IH]; intros H; simpl; [reflexivity|].
  simpl in H. apply andb_prop in H. destruct H as [Hx Ha].
  apply negb_true_iff in Hx. rewrite Hx, (IH Ha). reflexivity.
Qed.

Lemma stripBase64Prefix_segment :
  forall prefix payload,
    noChar "," prefix = true ->
    noChar "," payload = true ->
    stripBase64Prefix (String.append prefix (String "," payload)) = Some payload.
Proof.
  intros prefix payload Hprefix Hpayload. unfold stripBase64Prefix.
  rewrite (split_first _ _ _ Hprefix), (split_none _ _ Hpayload). reflexivity.
Qed.

(** X1.  [stripBase64Prefix] returns what stands between the first and the
    second comma of its argument: for a data URL [prefix,payload] with no
    comma in either part it is the payload; anything after a further comma
    is dropped; and with no comma at all the result is [undefined]. *)
Theorem stripBase64Prefix_payload :
  forall prefix payload,
    noChar "," prefix = true ->
    noChar "," payload = true ->
    stripBase64Prefix (String.append prefix (String "," payload)) = Some payload
    /\ (forall tail,
          stripBase64Prefix
            (String.append prefix
               (String "," (String.append payload (String "," tail))))
          = Some payload)
    /\ stripBase64Prefix prefix = None
    /\ stripBase64Prefix payload = None.
Proof.
  intros prefix payload Hprefix Hpayload. unfold stripBase64Prefix.
  repeat split.
  - rewrite (split_first _ _ _ Hprefix), (split_none _ _ Hpayload). reflexivity.
  - intros tail.
    rewrite (split_first _ _ _ Hprefix), (split_first _ _ _ Hpayload).
    reflexivity.
  - rewrite (split_none _ _ Hprefix). reflexivity.
  - rewrite (split_none _ _ Hpayload). reflexivity.
Qed.

Lemma stripBase64Prefix_payload_witness :
  stripBase64Prefix "data:image/png;base64,AAAA" = Some "AAAA"
  /\ stripBase64Prefix "data:image/png;base64" = None.
Proof.
  destruct (stripBase64Prefix_payload "data:image/png;base64" "AAAA"
              eq_refl eq_refl) as [H1 [_ [H2 _]]].
  split; [exact H1|exact H2].
Defined.

(** ** What the adapter returns *)

Lemma firstInlineData_found :
  forall ps,
    existsb hasInlineData ps = true ->
    exists before part blob payload after,
      ps = before ++ part :: after
      /\ forallb (fun p => negb (hasInlineData p)) before = true
      /\ inlineData part = Some blob
      /\ data blob = Some payload
      /\ payload <> ""
      /\ firstInlineData ps = payload.
Proof.
  induction ps as [|p ps IH]; intros H; [discriminate|].
  simpl in H. destruct (hasInlineData p) eqn:Hp.
  - unfold hasInlineData in Hp.
    destruct (inlineData p) as [blob|] eqn:Hblob; [|discriminate].
    destruct (data blob) as [payload|] eqn:Hdata; [|discriminate].
    exists [], p, blob, payload, ps. simpl. rewrite Hblob, Hdata.
    simpl in Hp. simpl. rewrite Hp.
    repeat split; auto.
    intros E. subst payload. discriminate.
  - simpl in H. destruct (IH H) as (before & part & blob & payload & after
                                   & E & Hb & Hi & Hd & Hne & Hf).
    exists (p :: before), part, blob, payload, after. subst ps. simpl.
    rewrite Hp. simpl. repeat split; auto.
    unfold hasInlineData in Hp.
    destruct (inlineData p) as [b|]; [|exact Hf].
    rewrite Hp. exact Hf.
Qed.

Lemma existsb_false_forallb :
  forall ps,
    existsb hasInlineData ps = false ->
    forallb (fun p => negb (hasInlineData p)) ps = true.
Proof.
  induction ps as [|p ps IH]; intros H; [reflexivity|].
  simpl in H. apply orb_false_iff in H. destruct H as [Hp Hps].
  simpl. rewrite Hp, (IH Hps). reflexivity.
Qed.

(** X2.  For a response with a list of content parts, the adapter succeeds
    exactly when some part carries non-empty inline data, and then with the
    data of the first such part, labelled as a PNG data URL whatever MIME
    type the part declares; parts before it, text or empty, are skipped and
    parts after it are ignored.  With no such part it fails with the fixed
    message. *)
Theorem first_inline_image_wins :
  forall host response ps,
    contentParts response = Some ps ->
    (existsb hasInlineData ps = true ->
     exists before part blob payload after,
       ps = before ++ part :: after
       /\ forallb (fun p => negb (hasInlineData p)) before = true
       /\ inlineData part = Some blob
       /\ data blob = Some payload
       /\ payload <> ""
       /\ settle host (Resolved response)
          = Ok (String.append "data:image/png;base64," payload))
    /\ (existsb hasInlineData ps = false ->
        settle host (Resolved response) = Err NO_IMAGE_DATA).
Proof.
  intros host response ps Hparts.
  assert (Hout : outputImageBase64 response = Some (firstInlineData ps)).
  { unfold outputImageBase64. unfold contentParts in Hparts.
    destruct (candidates response) as [[|candidate rest]|]; try discriminate.
    destruct (content candidate) as [c|]; [|discriminate].
    rewrite Hparts. reflexivity. }
  split.
  - intros Hsome.
    destruct (firstInlineData_found ps Hsome)
      as (before & part & blob & payload & after & E & Hb & Hi & Hd & Hne & Hf).
    exists before, part, blob, payload, after.
    repeat split; auto.
    unfold settle. rewrite Hout, Hf.
    destruct (String.eqb payload "") eqn:Ee; [|reflexivity].
    apply String.eqb_eq in Ee. contradiction.
  - intros Hnone. unfold settle. rewrite Hout.
    rewrite (firstInlineData_none ps (existsb_false_forallb ps Hnone)).
    reflexivity.
Qed.

Lemma first_inline_image_wins_witness :
  (exists payload,
      payload <> ""
      /\ settle (sampleHost imageResponse) (Resolved imageResponse)
         = Ok (String.append "data:image/png;base64," payload))
  /\ settle (sampleHost textOnlyResponse) (Resolved textOnlyResponse)
     = Err NO_IMAGE_DATA.
Proof.
  split.
  - destruct (first_inline_image_wins (sampleHost imageResponse) imageResponse
                _ eq_refl) as [Hsome _].
    destruct (Hsome eq_refl)
      as (before & part & blob & payload & after & E & Hb & Hi & Hd & Hne & Hs).
    exists payload. split; [exact Hne|exact Hs].
  - destruct (first_inline_image_wins (sampleHost textOnlyResponse)
                textOnlyResponse _ eq_refl) as [_ Hnone].
    exact (Hnone eq_refl).
Defined.

(** X3.  Whenever the adapter succeeds, its result is
    ["data:image/png;base64,"] followed by a non-empty payload.  When that
    payload has no comma (as base64 text has none), a later edit that takes
    the result as its source sends exactly this payload, under the MIME type
    the caller passes. *)
Theorem adapter_result_feeds_next_edit :
  forall host reply dataUrl,
    settle host reply = Ok dataUrl ->
    exists payload,
      payload <> ""
      /\ dataUrl = String.append "data:image/png;base64," payload
      /\ (noChar "," payload = true ->
          stripBase64Prefix dataUrl = Some payload
          /\ forall mimeType mode options,
               hd_error (contents (configure (stripBase64Prefix dataUrl)
                                             mimeType mode options))
               = Some (InlineDataPart (Some mimeType) (Some payload))).
Proof.
  intros host reply dataUrl H. unfold settle in H.
  destruct reply as [response|message]; [|discriminate].
  destruct (outputImageBase64 response) as [out|]; [|discriminate].
  destruct (String.eqb out "") eqn:E; [discriminate|].
  assert (Ed : dataUrl = String.append "data:image/png;base64," out)
    by (inversion H; reflexivity).
  clear H. exists out. split.
  { intros Eo. subst out. discriminate. }
  split; [exact Ed|].
  intros Hno. rewrite Ed.
  assert (Hs : stripBase64Prefix (String.append "data:image/png;base64," out)
               = Some out).
  { change (String.append "data:image/png;base64," out)
      with (String.append "data:image/png;base64" (String "," out)).
    exact (stripBase64Prefix_segment "data:image/png;base64" out
             eq_refl Hno). }
  split; [exact Hs|].
  intros mimeType mode options. rewrite Hs.
  destruct mode; try reflexivity.
  unfold configure.
  destruct (truthy (backgroundImage options)); [reflexivity|].
  destruct (truthy (backgroundColor options)); reflexivity.
Qed.

Lemma adapter_result_feeds_next_edit_witness :
  exists payload,
    payload <> ""
    /\ "data:image/png;base64,BBBB"
       = String.append "data:image/png;base64," payload.
Proof.
  destruct (adapter_result_feeds_next_edit (sampleHost imageResponse)
              (Resolved imageResponse) "data:image/png;base64,BBBB" eq_refl)
    as [payload [Hne [E _]]].
  exists payload. split; [exact Hne|exact E].
Defined.

Lemma noChar_app :
  forall c a b,
    noChar c (String.append a b) = noChar c a && noChar c b.
Proof.
  intros c a b. induction a as [|x a IH]; simpl; [reflexivity|].
  rewrite IH, andb_assoc. reflexivity.
Qed.

(** X4.  A custom background given as the data URL
    [data:<mime>;base64,<payload>] (no [;], [:] or [,] in the MIME type, no
    comma in the payload) is attached as the second image of the request
    under exactly that MIME type and payload, after the primary image and
    before the compositing instruction; the colour setting plays no part. *)
Theorem custom_background_attached :
  forall imageData mimeType color mime payload,
    noChar ";" mime = true ->
    noChar ":" mime = true ->
    noChar "," mime = true ->
    noChar "," payload = true ->
    contents
      (configure imageData mimeType EditMode.REPLACE_BG
         {| backgroundColor := color;
            backgroundImage :=
              Some (String.append "data:"
                      (String.append mime
                         (String.append ";base64," payload))) |})
    = [ InlineDataPart (Some mimeType) imageData;
        InlineDataPart (Some mime) (Some payload);
        TextPart PROMPT_COMPOSITE ].
Proof.
  intros imageData mimeType color mime payload Hsemi Hcolon Hcomma Hpay.
  unfold configure. cbn [backgroundImage backgroundColor].
  set (bg := String.append "data:"
               (String.append mime (String.append ";base64," payload))).
  assert (Htruthy : truthy (Some bg) = true) by reflexivity.
  rewrite Htruthy. cbn [nullish contents].
  assert (Hsplit : split ";" bg
                   = String.append "data:" mime
                       :: split ";" (String.append "base64," payload)).
  { unfold bg.
    change (String.append ";base64," payload)
      with (String ";" (String.append "base64," payload)).
    rewrite <- string_app_assoc. apply split_first.
    rewrite noChar_app, Hsemi. reflexivity. }
  assert (Hmime : nth_error (split ":" (String.append "data:" mime)) 1
                  = Some mime).
  { change (String.append "data:" mime)
      with (String.append "data" (String ":" mime)).
    rewrite (split_first ":" "data" mime eq_refl), (split_none _ _ Hcolon).
    reflexivity. }
  assert (Hdata : stripBase64Prefix bg = Some payload).
  { unfold bg.
    change (String.append ";base64," payload)
      with (String.append ";base64" (String "," payload)).
    rewrite <- !string_app_assoc.
    apply stripBase64Prefix_segment; [|exact Hpay].
    rewrite !noChar_app, Hcomma. reflexivity. }
  rewrite Hsplit. cbn [hd]. rewrite Hmime, Hdata. reflexivity.
Qed.

Lemma custom_background_attached_witness :
  contents
    (configure (Some "AAAA") "image/png" EditMode.REPLACE_BG
       {| backgroundColor := Some "#ffffff";
          backgroundImage := Some "data:image/jpeg;base64,CCCC" |})
  = [ InlineDataPart (Some "image/png") (Some "AAAA");
      InlineDataPart (Some "image/jpeg") (Some "CCCC");
      TextPart PROMPT_COMPOSITE ].
Proof.
  exact (custom_background_attached (Some "AAAA") "image/png" (Some "#ffffff")
           "image/jpeg" "CCCC" eq_refl eq_refl eq_refl eq_refl).
Defined.

(** ** Calls and models, kind by kind *)

(** X5.  Given an image, [performImageEdit] makes exactly one model call
    for every kind, the request [configure] builds, and it is the last call
    it makes.  The host's key check precedes it only for [ENHANCE] and
    [REPLACE_BG] and only when [window.aistudio] exists; the key chooser is
    opened only when that check answers no.  Given [null] for the image it
    makes no model call at all. *)
Theorem one_model_call_per_invocation :
  forall host dataUrl mimeType mode options,
    let events :=
      fst (performImageEdit host (Some dataUrl) mimeType mode options) in
    let request :=
      configure (stripBase64Prefix dataUrl) mimeType mode options in
    requestsOf events = [request]
    /\ last events HasSelectedApiKey = GenerateContent request
    /\ (In HasSelectedApiKey events <->
        aistudio host <> None
        /\ (mode = EditMode.ENHANCE \/ mode = EditMode.REPLACE_BG))
    /\ (In OpenSelectKey events <->
        aistudio host = Some false
        /\ (mode = EditMode.ENHANCE \/ mode = EditMode.REPLACE_BG))
    /\ length events <= 3
    /\ requestsOf (fst (performImageEdit host None mimeType mode options)) = [].
Proof.
  intros host dataUrl mimeType mode options. cbv zeta.
  unfold performImageEdit, keySelection. cbn [fst].
  destruct mode; destruct (aistudio host) as [[|]|]; simpl;
    (split; [reflexivity|]); (split; [reflexivity|]);
    repeat split; try reflexivity; try lia;
    intuition (try discriminate; try congruence).
Qed.

(** X6.  Which model and which output configuration a request names: the
    higher-capability model exactly for [ENHANCE] and for [REPLACE_BG] with
    a secondary image present, the default model otherwise; the 4K, 1:1
    output configuration exactly for [ENHANCE], none otherwise.  Every
    request starts with the primary image under the caller's MIME type and
    ends with its instruction, which is empty only for the kind [NONE]; it
    has three parts when a secondary image is attached and two otherwise. *)
Theorem model_and_output_size_by_kind :
  forall imageData mimeType mode options,
    let request := configure imageData mimeType mode options in
    let composite :=
      EditMode.eqb mode EditMode.REPLACE_BG
      && truthy (backgroundImage options) in
    (model request = "gemini-3-pro-image-preview" <->
     mode = EditMode.ENHANCE \/ composite = true)
    /\ (model request = "gemini-2.5-flash-image" <->
        mode <> EditMode.ENHANCE /\ composite = false)
    /\ (imageConfig request
        = Some {| imageSize := "4K"; configAspectRatio := "1:1" |} <->
        mode = EditMode.ENHANCE)
    /\ (imageConfig request = None <-> mode <> EditMode.ENHANCE)
    /\ hd_error (contents request)
       = Some (InlineDataPart (Some mimeType) imageData)
    /\ last (contents request) (TextPart "")
       = TextPart (promptOf (contents request))
    /\ (promptOf (contents request) = "" <-> mode = EditMode.NONE)
    /\ length (contents request) = if composite then 3 else 2.
Proof.
  intros imageData mimeType mode options. cbv zeta.
  destruct mode; unfold configure; cbn [EditMode.eqb andb];
    try (destruct (truthy (backgroundImage options));
         [|destruct (truthy (backgroundColor options))]);
    cbn [model imageConfig contents hd_error last promptOf length];
    repeat split; intros; try reflexivity; try discriminate;
    try (intuition (try discriminate; try congruence)).
Qed.

(** ** The error string *)

Lemma or_else_nonempty :
  forall a b, b <> "" -> or_else a b <> "".
Proof.
  intros a b Hb. unfold or_else.
  destruct (String.eqb a "") eqn:E; [exact Hb|].
  intros Ea. subst a. discriminate.
Qed.

Lemma or_else_left :
  forall a b, a <> "" -> or_else a b = a.
Proof.
  intros a b Ha. unfold or_else.
  destruct (String.eqb a "") eqn:E; [|reflexivity].
  apply String.eqb_eq in E. contradiction.
Qed.

Lemma settle_message_nonempty :
  forall host reply message,
    settle host reply = Err message -> message <> "".
Proof.
  intros host reply message H. unfold settle in H.
  destruct reply as [response|m].
  - destruct (outputImageBase64 response) as [out|].
    + destruct (String.eqb out ""); inversion H. discriminate.
    + inversion H. apply or_else_nonempty. discriminate.
  - inversion H. apply or_else_nonempty. discriminate.
Qed.

(** X7.  The error string over the life of an AI edit.  Starting an edit
    clears it and success leaves it cleared.  A failure always stores a
    non-empty message, so the error toast is shown: the adapter's own
    message when it has one, ["Processing failed."] otherwise.  Where the
    adapter's message comes from: once the source image is there, every
    failure of the adapter passes through its [catch], which never gives an
    empty message (a rejected call with none surfaces as ["Failed to
    process image"], a rejected call with one keeps it); a [null] source
    image fails before the [try], with the engine's [TypeError] text as it
    is, empty or not.  [handleAIEdit] passes the image of the active
    session, which in a reachable state is never [null], so there the
    adapter's message is never empty and is what the toast shows. *)
Theorem failure_always_shows_a_message :
  forall host call st,
    (forall kind st' issued,
        handleAIEdit_begin kind st = (st', Some issued) ->
        error (processing st') = None)
    /\ (forall resultBase64,
          error (processing (handleAIEdit_resume call (Ok resultBase64) st))
          = None)
    /\ (forall message,
          exists shown,
            error (processing (handleAIEdit_resume call (Err message) st))
            = Some shown
            /\ truthy (Some shown) = true
            /\ (message <> "" -> shown = message)
            /\ (message = "" -> shown = "Processing failed."))
    /\ (forall dataUrl mimeType kind options message,
          snd (performImageEdit host (Some dataUrl) mimeType kind options)
          = Err message ->
          message <> "")
    /\ (forall mimeType kind options,
          snd (performImageEdit host None mimeType kind options)
          = Err (typeErrorMessage host "split"))
    /\ (forall kind st' issued message,
          reachable {| app := st; inflight := [] |} ->
          handleAIEdit_begin kind st = (st', Some issued) ->
          snd (invoke host issued) = Err message ->
          message <> ""
          /\ error (processing (snd (handleAIEdit host kind st)))
             = Some message)
    /\ settle host (Rejected "") = Err "Failed to process image"
    /\ (forall message,
          message <> "" -> settle host (Rejected message) = Err message).
Proof.
  intros host call st. split.
  { intros kind st' issued H. unfold handleAIEdit_begin in H.
    destruct (activeImage st); [|discriminate].
    destruct (isProcessing (processing st)); [discriminate|].
    inversion H. reflexivity. }
  split; [reflexivity|]. split.
  { intros message. exists (or_else message "Processing failed.").
    split; [reflexivity|]. split.
    - simpl. apply negb_true_iff. apply String.eqb_neq.
      apply or_else_nonempty. discriminate.
    - split; [intros H; apply or_else_left, H|].
      intros H. subst message. reflexivity. }
  assert (Hadapter : forall dataUrl mimeType kind options message,
             snd (performImageEdit host (Some dataUrl) mimeType kind options)
             = Err message ->
             message <> "").
  { intros dataUrl mimeType kind options message H.
    unfold performImageEdit in H. cbn [snd] in H.
    exact (settle_message_nonempty _ _ _ H). }
  split; [exact Hadapter|].
  split; [reflexivity|].
  split.
  { intros kind st' issued message Hreach Hbegin Hfail.
    assert (Hne : message <> "").
    { unfold handleAIEdit_begin in Hbegin.
      destruct (activeImage st) as [a|] eqn:Ha; [|discriminate].
      destruct (isProcessing (processing st)); [discriminate|].
      destruct (reachable_active_current _ a Hreach Ha) as [dataUrl Hcur].
      inversion Hbegin; subst; clear Hbegin.
      unfold invoke in Hfail. cbn [callImage callMimeType callMode callOptions]
        in Hfail.
      rewrite Hcur in Hfail. exact (Hadapter _ _ _ _ _ Hfail). }
    split; [exact Hne|].
    unfold handleAIEdit. rewrite Hbegin.
    destruct (invoke host issued) as [events settled]. cbn [snd] in Hfail.
    subst settled. cbn [snd]. rewrite handleAIEdit_resume_err.
    simpl. rewrite (or_else_left _ _ Hne). reflexivity. }
  split; [reflexivity|].
  intros message H. simpl. rewrite (or_else_left _ _ H). reflexivity.
Qed.

(** The uploaded photo, with a model call that is rejected with no message:
    the toast shows the adapter's fallback. *)
Lemma rejected_call_without_message_example :
  let host := {| aistudio := None;
                 generateContent := fun _ => Rejected "";
                 typeErrorMessage := fun _ => "" |} in
  error (processing (snd (handleAIEdit host EditMode.REMOVE_BG sampleApp)))
  = Some "Failed to process image"
  /\ snd (performImageEdit host None "image/png" EditMode.REMOVE_BG
            {| backgroundColor := None; backgroundImage := None |})
     = Err "".
Proof.
  split; reflexivity.
Qed.

(** ** Sessions over the whole run *)

(** A property of sessions that holds for a fresh upload and is kept by
    commits of an image or a filter, by slider updates and by rewinding to
    an entry of a session that has it, holds for every session of every
    reachable state. *)
Lemma reachable_sessions_ind :
  forall P : ImageState -> Prop,
    (forall rid fileName fileType base64,
        P (newImg rid fileName fileType base64)) ->
    (forall newState img,
        suppliesImage newState = true -> P img ->
        P (pushHistory_img newState img)) ->
    (forall key value img, P img -> P (updateAdjustment_img key value img)) ->
    (forall a entry k img,
        P a -> nth_error (history a) k = Some entry -> P img ->
        P (restore entry k img)) ->
    forall s, reachable s -> Forall P (images (app s)).
Proof.
  intros P Hnew Hpush Hadj Hrestore s H.
  induction H as [|a s s' _ IH Hstep]; [constructor|].
  assert (Hactive : forall x, activeImage (app s) = Some x -> P x).
  { intros x Hx. rewrite Forall_forall in IH.
    apply IH, activeImage_In, Hx. }
  destruct a as [read rid result|imageId| | |key value|f|value
                |dataUrl|value|kind|settled]; simpl in Hstep.
  - destruct (isImageFile (readFile read)); [|discriminate].
    inversion Hstep; subst; clear Hstep. simpl. unfold readerOnload.
    destruct (negb (String.eqb result "")); [|exact IH].
    assert (Hall : Forall P (images (app s)
                             ++ [newImg rid (file_name (readFile read))
                                        (file_type (readFile read)) result])).
    { apply Forall_app. split; [exact IH|].
      constructor; [apply Hnew|constructor]. }
    destruct (truthy (readActiveImageId read)); exact Hall.
  - inversion Hstep; subst. exact IH.
  - unfold undo in Hstep.
    destruct (activeImage (app s)) as [a|] eqn:Ha;
      [|inversion Hstep; subst; exact IH].
    destruct (historyIndex a <=? 0); [inversion Hstep; subst; exact IH|].
    destruct (nth_error (history a) (historyIndex a - 1)) as [entry|] eqn:En;
      [|discriminate].
    inversion Hstep; subst; clear Hstep. simpl.
    apply Forall_mapMatching; [|exact IH].
    intros img. exact (Hrestore a entry _ img (Hactive a eq_refl) En).
  - unfold redo in Hstep.
    destruct (activeImage (app s)) as [a|] eqn:Ha;
      [|inversion Hstep; subst; exact IH].
    destruct (length (history a) - 1 <=? historyIndex a);
      [inversion Hstep; subst; exact IH|].
    destruct (nth_error (history a) (historyIndex a + 1)) as [entry|] eqn:En;
      [|discriminate].
    inversion Hstep; subst; clear Hstep. simpl.
    apply Forall_mapMatching; [|exact IH].
    intros img. exact (Hrestore a entry _ img (Hactive a eq_refl) En).
  - inversion Hstep; subst; clear Hstep. simpl. unfold updateAdjustment.
    destruct (activeImage (app s)) as [a|]; [|exact IH].
    simpl. apply Forall_mapMatching; [|exact IH].
    intros img. apply Hadj.
  - inversion Hstep; subst; clear Hstep. simpl. unfold setFilter.
    destruct (activeImage (app s)) as [a|]; [|exact IH].
    simpl. apply Forall_mapMatching; [|exact IH].
    intros img. apply Hpush. reflexivity.
  - inversion Hstep; subst. exact IH.
  - inversion Hstep; subst; clear Hstep. simpl. unfold handleBgUpload.
    destruct (String.eqb dataUrl ""); exact IH.
  - inversion Hstep; subst. exact IH.
  - unfold handleAIEdit_begin in Hstep.
    destruct (activeImage (app s)) as [a|];
      [|inversion Hstep; subst; exact IH].
    destruct (isProcessing (processing (app s)));
      inversion Hstep; subst; exact IH.
  - destruct (inflight s) as [|call rest]; [discriminate|].
    inversion Hstep; subst; clear Hstep. simpl.
    destruct settled as [resultBase64|message]; simpl; [|exact IH].
    apply Forall_mapMatching; [|exact IH].
    intros img. apply Hpush. reflexivity.
Qed.

Lemma pushHistory_img_first :
  forall newState img,
    history img <> [] ->
    nth_error (history (pushHistory_img newState img)) 0
    = nth_error (history img) 0.
Proof.
  intros newState img H. simpl.
  destruct (history img) as [|entry rest]; [contradiction|].
  rewrite Nat.add_1_r. reflexivity.
Qed.

Lemma pushHistory_img_seeded :
  forall newState img, seeded img -> seeded (pushHistory_img newState img).
Proof.
  intros newState img (base64 & Ho & Ht & Hn).
  exists base64. split; [exact Ho|]. split; [exact Ht|].
  rewrite pushHistory_img_first; [exact Hn|].
  intros E. rewrite E in Hn. discriminate.
Qed.

(** X8.  In every reachable state, every session still carries the upload
    it was created from: [original] and [thumbnail] hold the uploaded data
    URL, and the first entry of its history is that image with neutral
    adjustments and no filter.  No commit, undo, redo or slider update ever
    overwrites them. *)
Theorem original_upload_is_kept :
  forall s,
    reachable s ->
    Forall
      (fun img =>
         exists base64,
           original img = Some base64
           /\ thumbnail img = Some base64
           /\ nth_error (history img) 0
              = Some {| h_current := Some base64;
                        h_adjustments := {| brightness := 100;
                                            contrast := 100;
                                            saturation := 100;
                                            blur := 0 |};
                        h_filter := FilterType.NONE |}
           /\ history img <> [])
      (images (app s)).
Proof.
  intros s H.
  assert (Hseed : Forall seeded (images (app s))).
  { apply reachable_sessions_ind; auto.
    - intros rid fileName fileType base64. exists base64. repeat split.
    - intros newState img _. apply pushHistory_img_seeded. }
  eapply Forall_impl; [|exact Hseed].
  intros img (base64 & Ho & Ht & Hn). exists base64.
  repeat split; auto.
  intros E. rewrite E in Hn. discriminate.
Qed.

Lemma original_upload_is_kept_witness :
  Forall
    (fun img =>
       exists base64,
         original img = Some base64
         /\ thumbnail img = Some base64
         /\ nth_error (history img) 0
            = Some {| h_current := Some base64;
                      h_adjustments := {| brightness := 100;
                                          contrast := 100;
                                          saturation := 100;
                                          blur := 0 |};
                      h_filter := FilterType.NONE |}
         /\ history img <> [])
    (images (setFilter FilterType.SEPIA sampleApp)).
Proof.
  apply (original_upload_is_kept
           {| app := setFilter FilterType.SEPIA sampleApp; inflight := [] |}).
  apply (reachable_step (SetFilter FilterType.SEPIA)
           {| app := sampleApp; inflight := [] |}); [|reflexivity].
  apply (reachable_step (FileLoaded sampleRead "k3x9" samplePhoto)
           initialSys); [|reflexivity].
  apply reachable_init.
Defined.

Lemma map_identityOf_mapMatching :
  forall imageId f l,
    (forall img, identityOf (f img) = identityOf img) ->
    map identityOf (mapMatching imageId f l) = map identityOf l.
Proof.
  intros imageId f l Hf. unfold mapMatching. rewrite map_map.
  apply map_ext. intros img.
  destruct (String.eqb (id img) imageId); [apply Hf|reflexivity].
Qed.

(** One event keeps the sessions there are, in their order and with their
    identity, and adds at most one at the end, when a file has been read. *)
Lemma step_identities :
  forall a s s',
    step a s = Some s' ->
    exists added,
      map identityOf (images (app s'))
      = map identityOf (images (app s)) ++ added
      /\ length added <= fileReads [a].
Proof.
  intros a s s' Hstep.
  assert (Hsame : images (app s') = images (app s) ->
                  exists added,
                    map identityOf (images (app s'))
                    = map identityOf (images (app s)) ++ added
                    /\ length added <= fileReads [a]).
  { intros E. exists []. rewrite E, app_nil_r. split; [reflexivity|].
    simpl. lia. }
  assert (Hmap : forall k f,
             (forall img, identityOf (f img) = identityOf img) ->
             images (app s') = mapMatching k f (images (app s)) ->
             exists added,
               map identityOf (images (app s'))
               = map identityOf (images (app s)) ++ added
               /\ length added <= fileReads [a]).
  { intros k f Hf E. exists []. rewrite E, app_nil_r.
    split; [apply map_identityOf_mapMatching, Hf|simpl; lia]. }
  destruct a as [read rid result|imageId| | |key value|f|value
                |dataUrl|value|kind|settled]; simpl in Hstep.
  - destruct (isImageFile (readFile read)); [|discriminate].
    inversion Hstep; subst; clear Hstep Hsame Hmap. simpl.
    unfold readerOnload.
    destruct (negb (String.eqb result ""));
      [|exists []; rewrite app_nil_r; split; [reflexivity|simpl; lia]].
    exists [identityOf (newImg rid (file_name (readFile read))
                               (file_type (readFile read)) result)].
    split; [|simpl; lia].
    destruct (truthy (readActiveImageId read)); simpl; rewrite map_app;
      reflexivity.
  - inversion Hstep; subst. apply Hsame. reflexivity.
  - unfold undo in Hstep.
    destruct (activeImage (app s)) as [a|];
      [|inversion Hstep; subst; apply Hsame; reflexivity].
    destruct (historyIndex a <=? 0);
      [inversion Hstep; subst; apply Hsame; reflexivity|].
    destruct (nth_error (history a) (historyIndex a - 1)) as [entry|];
      [|discriminate].
    inversion Hstep; subst; clear Hstep.
    eapply Hmap; [|reflexivity]. reflexivity.
  - unfold redo in Hstep.
    destruct (activeImage (app s)) as [a|];
      [|inversion Hstep; subst; apply Hsame; reflexivity].
    destruct (length (history a) - 1 <=? historyIndex a);
      [inversion Hstep; subst; apply Hsame; reflexivity|].
    destruct (nth_error (history a) (historyIndex a + 1)) as [entry|];
      [|discriminate].
    inversion Hstep; subst; clear Hstep.
    eapply Hmap; [|reflexivity]. reflexivity.
  - inversion Hstep; subst; clear Hstep. simpl in *. unfold updateAdjustment in *.
    destruct (activeImage (app s)) as [a|]; [|apply Hsame; reflexivity].
    eapply Hmap; [|reflexivity]. reflexivity.
  - inversion Hstep; subst; clear Hstep. simpl in *. unfold setFilter in *.
    destruct (activeImage (app s)) as [a|]; [|apply Hsame; reflexivity].
    eapply Hmap; [|reflexivity]. reflexivity.
  - inversion Hstep; subst. apply Hsame. reflexivity.
  - inversion Hstep; subst; clear Hstep. apply Hsame. simpl.
    unfold handleBgUpload. destruct (String.eqb dataUrl ""); reflexivity.
  - inversion Hstep; subst. apply Hsame. reflexivity.
  - unfold handleAIEdit_begin in Hstep.
    destruct (activeImage (app s)) as [a|];
      [|inversion Hstep; subst; apply Hsame; reflexivity].
    destruct (isProcessing (processing (app s)));
      inversion Hstep; subst; apply Hsame; reflexivity.
  - destruct (inflight s) as [|call rest]; [discriminate|].
    inversion Hstep; subst; clear Hstep.
    destruct settled as [resultBase64|message].
    + eapply Hmap; [|reflexivity]. reflexivity.
    + apply Hsame. reflexivity.
Qed.

(** X9.  Over any sequence of events the sessions already loaded stay in
    the list, in the same order, with the same [id], [original],
    [thumbnail], [mimeType] and [name]; sessions are only ever added at the
    end, at most one for each file read, that is, for each run of a
    [reader.onload] callback (a change event on several image files starts
    as many readers, so it can add as many sessions).  Nothing removes a
    session. *)
Theorem sessions_are_never_removed :
  forall actions s s',
    run actions s = Some s' ->
    exists added,
      map identityOf (images (app s'))
      = map identityOf (images (app s)) ++ added
      /\ length added <= fileReads actions
      /\ length (images (app s)) <= length (images (app s')).
Proof.
  induction actions as [|a actions IH]; intros s s' H; simpl in H.
  - inversion H; subst. exists []. rewrite app_nil_r.
    repeat split; simpl; lia.
  - destruct (step a s) as [s1|] eqn:Hstep; [|discriminate].
    destruct (step_identities a s s1 Hstep) as (added1 & E1 & L1).
    destruct (IH s1 s' H) as (added2 & E2 & L2 & _).
    exists (added1 ++ added2).
    assert (E : map identityOf (images (app s'))
                = map identityOf (images (app s)) ++ added1 ++ added2).
    { rewrite E2, E1, <- app_assoc. reflexivity. }
    split; [exact E|]. split.
    + rewrite length_app.
      assert (Hu : fileReads (a :: actions) = fileReads [a] + fileReads actions).
      { destruct a; simpl; lia. }
      lia.
    + apply (f_equal (@length _)) in E.
      rewrite length_map, length_app, length_map in E. lia.
Qed.

Lemma sessions_are_never_removed_witness :
  exists added,
    map identityOf
      (images (app {| app := setFilter FilterType.SEPIA sampleApp;
                      inflight := [] |}))
    = map identityOf (images (app initialSys)) ++ added
    /\ length added <= 2.
Proof.
  destruct (sessions_are_never_removed
              [ FileLoaded sampleRead "k3x9" samplePhoto;
                FileLoaded sampleRead "zz01" EmptyString;
                SetFilter FilterType.SEPIA ]
              initialSys
              {| app := setFilter FilterType.SEPIA sampleApp; inflight := [] |}
              eq_refl) as (added & E & L & _).
  exists added. split; [exact E|].
  simpl in L. lia.
Defined.

(** ** The outstanding call *)

Lemma identities_keep_ids :
  forall (l l' : list ImageState) added i,
    map identityOf l' = map identityOf l ++ added ->
    In i (map id l) -> In i (map id l').
Proof.
  intros l l' added i E Hin.
  assert (Hid : forall m : list ImageState,
             map id m = map (fun t => fst (fst (fst (fst t)))) (map identityOf m)).
  { intros m. rewrite map_map. reflexivity. }
  rewrite Hid in *. rewrite E, map_app. apply in_or_app. left. exact Hin.
Qed.

Lemma step_tracked :
  forall a s s',
    reachable s -> step a s = Some s' -> tracked s -> tracked s'.
Proof.
  intros a s s' Hreach Hstep [Hcall Hidle].
  pose proof (reachable_single_flight s Hreach) as Hsf.
  destruct (step_identities a s s' Hstep) as (added & Eid & _).
  assert (Hquiet : inflight s' = inflight s ->
                   processing (app s') = processing (app s) -> tracked s').
  { intros Ei Ep. unfold tracked. rewrite Ei, Ep. split; [|exact Hidle].
    intros call Hin. destruct (Hcall call Hin) as (H1 & H2 & H3 & H4).
    split; [|auto]. exact (identities_keep_ids _ _ _ _ Eid H1). }
  destruct a as [read rid result|imageId| | |key value|f|value
                |dataUrl|value|kind|settled]; simpl in Hstep.
  - destruct (isImageFile (readFile read)); [|discriminate].
    inversion Hstep; subst. apply Hquiet; [reflexivity|].
    apply readerOnload_processing.
  - inversion Hstep; subst. apply Hquiet; reflexivity.
  - destruct (undo (app s)) as [st|] eqn:E; inversion Hstep; subst.
    apply Hquiet; [reflexivity|exact (undo_processing _ _ E)].
  - destruct (redo (app s)) as [st|] eqn:E; inversion Hstep; subst.
    apply Hquiet; [reflexivity|exact (redo_processing _ _ E)].
  - inversion Hstep; subst. apply Hquiet; [reflexivity|].
    simpl. unfold updateAdjustment. destruct (activeImage (app s)); reflexivity.
  - inversion Hstep; subst. apply Hquiet; [reflexivity|].
    simpl. unfold setFilter. destruct (activeImage (app s)); reflexivity.
  - inversion Hstep; subst. apply Hquiet; reflexivity.
  - inversion Hstep; subst. apply Hquiet; [reflexivity|].
    simpl. unfold handleBgUpload. destruct (String.eqb dataUrl ""); reflexivity.
  - inversion Hstep; subst. apply Hquiet; reflexivity.
  - unfold handleAIEdit_begin in Hstep.
    destruct (activeImage (app s)) as [a|] eqn:Ha;
      [|inversion Hstep; subst; apply Hquiet; reflexivity].
    destruct (isProcessing (processing (app s))) eqn:Hp;
      [inversion Hstep; subst; apply Hquiet; reflexivity|].
    inversion Hstep; subst; clear Hstep.
    destruct Hsf as [[Hnone _]|[c [_ Hup]]]; [|congruence].
    unfold tracked. simpl. rewrite Hnone. simpl. split.
    + intros call [E|[]]. subst call. simpl.
      split; [apply in_map, (activeImage_In _ _ Ha)|].
      split; [reflexivity|]. split; [reflexivity|].
      exact (reachable_active_current s a Hreach Ha).
    + discriminate.
  - destruct (inflight s) as [|call rest] eqn:Ei; [discriminate|].
    inversion Hstep; subst; clear Hstep.
    destruct Hsf as [[Hnone _]|[c [Hone _]]]; [congruence|].
    rewrite Ei in Hone. inversion Hone; subst.
    unfold tracked. simpl. split; [intros call []|].
    intros _. destruct settled; reflexivity.
Qed.

(** X10.  While a call is outstanding, in every reachable state, the
    session it was started on is still loaded, so its result has a session
    to go to; the processing state names the call's kind and holds no
    error; and the image it was given is not [null].  With no call
    outstanding the processing state names no kind. *)
Theorem outstanding_call_keeps_its_session :
  forall s,
    reachable s ->
    (forall call,
        In call (inflight s) ->
        (exists img, In img (images (app s)) /\ id img = callImageId call)
        /\ mode (processing (app s)) = Some (callMode call)
        /\ error (processing (app s)) = None
        /\ exists dataUrl, callImage call = Some dataUrl)
    /\ (inflight s = [] -> mode (processing (app s)) = None).
Proof.
  intros s H.
  assert (Ht : tracked s).
  { induction H as [|a s s' Hreach IH Hstep].
    - split; [intros call []|reflexivity].
    - exact (step_tracked a s s' Hreach Hstep IH). }
  destruct Ht as [Hcall Hidle]. split; [|exact Hidle].
  intros call Hin. destruct (Hcall call Hin) as (H1 & H2 & H3 & H4).
  split; [|auto].
  apply in_map_iff in H1. destruct H1 as (img & Eid & Himg).
  exists img. split; assumption.
Qed.

Lemma outstanding_call_keeps_its_session_witness :
  mode (processing (app (mkSys
          (setProcessing
             {| isProcessing := true; error := None;
                mode := Some EditMode.ENHANCE |} sampleApp)
          [ {| callImageId := "k3x9";
               callImage := Some samplePhoto;
               callMimeType := "image/png";
               callMode := EditMode.ENHANCE;
               callOptions :=
                 {| backgroundColor := Some "#ffffff";
                    backgroundImage := None |} |} ])))
  = Some EditMode.ENHANCE.
Proof.
  assert (Hreach :
    reachable (mkSys
          (setProcessing
             {| isProcessing := true; error := None;
                mode := Some EditMode.ENHANCE |} sampleApp)
          [ {| callImageId := "k3x9";
               callImage := Some samplePhoto;
               callMimeType := "image/png";
               callMode := EditMode.ENHANCE;
               callOptions :=
                 {| backgroundColor := Some "#ffffff";
                    backgroundImage := None |} |} ])).
  { apply (reachable_step (AIEdit EditMode.ENHANCE)
             {| app := sampleApp; inflight := [] |}); [|reflexivity].
    apply (reachable_step (FileLoaded sampleRead "k3x9" samplePhoto)
             initialSys); [|reflexivity].
    apply reachable_init. }
  destruct (outstanding_call_keeps_its_session _ Hreach) as [Hcall _].
  destruct (Hcall _ (or_introl eq_refl)) as (_ & Hmode & _).
  exact Hmode.
Defined.

(** ** Rewinding and replaying one session *)

Lemma session_reachable_seeded :
  forall img, session_reachable img -> seeded img.
Proof.
  intros img H. induction H as [rid fileName fileType base64|img img' Hr IH Hstep].
  - exists base64. repeat split.
  - pose proof (proj1 (session_reachable_cursor img Hr)) as Hlt.
    destruct Hstep as [p img _|img img' H|img img' H|k v img].
    + apply pushHistory_img_seeded, IH.
    + destruct (undo_img_cases img Hlt) as [[_ E]|[entry [_ [_ E]]]];
        rewrite E in H; inversion H; subst; exact IH.
    + destruct (redo_img_cases img Hlt) as [[_ E]|[entry [_ [_ E]]]];
        rewrite E in H; inversion H; subst; exact IH.
    + exact IH.
Qed.

(** X11.  From any reachable session state, undoing as many times as the
    cursor is high always succeeds and ends at cursor 0 showing the image
    that was uploaded, with no filter, and, if at least one undo was
    needed, with neutral adjustments.  The history itself is untouched, so
    everything can be redone. *)
Theorem full_rewind_shows_the_upload :
  forall img,
    session_reachable img ->
    exists img' base64,
      undos (historyIndex img) img = Some img'
      /\ historyIndex img' = 0
      /\ history img' = history img
      /\ original img = Some base64
      /\ current img' = Some base64
      /\ filter img' = FilterType.NONE
      /\ (0 < historyIndex img -> adjustments img' = DEFAULT_ADJUSTMENTS).
Proof.
  intros img Hreach.
  destruct (session_reachable_cursor img Hreach)
    as [Hlt (entry & Hentry & Hcur & Hfil)].
  destruct (session_reachable_seeded img Hreach) as (base64 & Ho & _ & Hseed).
  destruct (undos_to_start (historyIndex img) img eq_refl Hlt)
    as (img' & U1 & U2 & U3 & _ & U5 & U6).
  exists img', base64.
  split; [exact U1|]. split; [exact U3|]. split; [exact U2|].
  split; [exact Ho|].
  destruct (Nat.eq_dec (historyIndex img) 0) as [Hz|Hnz].
  - rewrite (U6 Hz). rewrite Hz in Hentry. rewrite Hseed in Hentry.
    inversion Hentry; subst entry. simpl in Hcur, Hfil.
    split; [congruence|]. split; [congruence|]. lia.
  - assert (Hpos : 0 < historyIndex img) by lia.
    specialize (U5 Hpos). rewrite Hseed in U5.
    inversion U5 as [[Hc Ha Hf]].
    split; [reflexivity|]. split; [reflexivity|]. intros _. reflexivity.
Qed.

Lemma full_rewind_shows_the_upload_witness :
  exists img',
    undos 2
      (pushHistory_img (resultOnly "data:image/png;base64,BBBB")
         (pushHistory_img (filterOnly FilterType.SEPIA) sampleSession))
    = Some img'
    /\ current img' = Some samplePhoto
    /\ filter img' = FilterType.NONE.
Proof.
  assert (Hreach :
    session_reachable
      (pushHistory_img (resultOnly "data:image/png;base64,BBBB")
         (pushHistory_img (filterOnly FilterType.SEPIA) sampleSession))).
  { eapply session_stepped; [|apply step_commit; reflexivity].
    eapply session_stepped; [|apply step_commit; reflexivity].
    apply session_created. }
  destruct (full_rewind_shows_the_upload _ Hreach)
    as (img' & base64 & U & _ & _ & Ho & Hc & Hf & _).
  exists img'. split; [exact U|]. split; [|exact Hf].
  rewrite Hc, <- Ho. reflexivity.
Defined.

Lemma restore_visible_self :
  forall img other,
    history other = history img ->
    same_identity img other ->
    restore (visible img) (historyIndex img) other = img.
Proof.
  intros img other Hh Hid. apply ImageState_ext.
  - apply same_identity_sym. exact Hid.
  - destruct img; reflexivity.
  - exact Hh.
  - reflexivity.
Qed.

(** When the entry at the cursor is the visible state, an undo that moves
    the cursor is taken back by a redo. *)
Lemma undo_then_redo :
  forall img,
    snapshot_invariant img -> 0 < historyIndex img ->
    exists u,
      undo_img img = Some u
      /\ historyIndex u = historyIndex img - 1
      /\ redo_img u = Some img.
Proof.
  intros img [Hlt Hsnap] Hpos.
  destruct (undo_img_cases img Hlt) as [[H0 _]|[entry [_ [Hn E]]]]; [lia|].
  exists (restore entry (historyIndex img - 1) img).
  split; [exact E|]. split; [reflexivity|].
  unfold redo_img. simpl.
  destruct (Nat.leb_spec (length (history img) - 1) (historyIndex img - 1));
    [lia|].
  replace (historyIndex img - 1 + 1) with (historyIndex img) by lia.
  rewrite Hsnap. f_equal.
  apply restore_visible_self; [reflexivity|apply restore_same_identity].
Qed.

(** And a redo that moves the cursor is taken back by an undo. *)
Lemma redo_then_undo :
  forall img,
    snapshot_invariant img ->
    historyIndex img + 1 < length (history img) ->
    exists r,
      redo_img img = Some r
      /\ historyIndex r = historyIndex img + 1
      /\ undo_img r = Some img.
Proof.
  intros img [Hlt Hsnap] Hnext.
  destruct (redo_img_cases img Hlt) as [[H0 _]|[entry [_ [Hn E]]]]; [lia|].
  exists (restore entry (historyIndex img + 1) img).
  split; [exact E|]. split; [reflexivity|].
  unfold undo_img. simpl.
  destruct (Nat.leb_spec (historyIndex img + 1) 0); [lia|].
  replace (historyIndex img + 1 - 1) with (historyIndex img) by lia.
  rewrite Hsnap. f_equal.
  apply restore_visible_self; [reflexivity|apply restore_same_identity].
Qed.

(** X12.  On a session whose entry at the cursor is what it shows (as
    right after a commit, or after an undo or redo that moved the cursor),
    undo and redo are inverse to each other: an undo from a cursor above 0
    followed by a redo, and a redo from below the last entry followed by an
    undo, both give back the very same session state. *)
Theorem undo_and_redo_are_inverse :
  forall img,
    snapshot_invariant img ->
    (0 < historyIndex img ->
     exists u,
       undo_img img = Some u
       /\ historyIndex u = historyIndex img - 1
       /\ redo_img u = Some img)
    /\ (historyIndex img + 1 < length (history img) ->
        exists r,
          redo_img img = Some r
          /\ historyIndex r = historyIndex img + 1
          /\ undo_img r = Some img).
Proof.
  intros img Hsnap. split.
  - apply undo_then_redo, Hsnap.
  - apply redo_then_undo, Hsnap.
Qed.

Lemma undo_and_redo_are_inverse_witness :
  exists u,
    undo_img (pushHistory_img (filterOnly FilterType.SEPIA) sampleSession)
    = Some u
    /\ redo_img u
       = Some (pushHistory_img (filterOnly FilterType.SEPIA) sampleSession).
Proof.
  assert (Hsnap : snapshot_invariant
                    (pushHistory_img (filterOnly FilterType.SEPIA) sampleSession)).
  { split; [simpl; lia|reflexivity]. }
  assert (Hpos : 0 < historyIndex
                       (pushHistory_img (filterOnly FilterType.SEPIA)
                          sampleSession)) by (simpl; lia).
  destruct (proj1 (undo_and_redo_are_inverse _ Hsnap) Hpos) as (u & U & _ & R).
  exists u. split; [exact U|exact R].
Defined.

(** X13.  Slider changes that were not committed do not survive rewinding:
    after a slider update on a session whose cursor is above 0, an undo
    followed by a redo comes back to the same cursor but shows the entry
    stored there, with the adjustments of the last commit and not the
    slider value just set.  The history is left as it was. *)
Theorem undo_redo_drops_uncommitted_sliders :
  forall img key value,
    historyIndex img < length (history img) ->
    0 < historyIndex img ->
    exists u r entry,
      undo_img (updateAdjustment_img key value img) = Some u
      /\ redo_img u = Some r
      /\ nth_error (history img) (historyIndex img) = Some entry
      /\ visible r = entry
      /\ adjustments r = h_adjustments entry
      /\ historyIndex r = historyIndex img
      /\ history r = history img.
Proof.
  intros img key value Hlt Hpos.
  set (img1 := updateAdjustment_img key value img).
  assert (Hlt1 : historyIndex img1 < length (history img1)) by exact Hlt.
  destruct (undo_img_cases img1 Hlt1) as [[H0 _]|[prev [_ [Hn E]]]];
    [simpl in H0; lia|].
  destruct (nth_error (history img) (historyIndex img)) as [entry|] eqn:He;
    [|apply nth_error_None in He; lia].
  exists (restore prev (historyIndex img1 - 1) img1),
         (restore entry (historyIndex img) img1), entry.
  split; [exact E|]. split.
  - unfold redo_img. simpl.
    destruct (Nat.leb_spec (length (history img) - 1) (historyIndex img - 1));
      [lia|].
    replace (historyIndex img - 1 + 1) with (historyIndex img) by lia.
    rewrite He. reflexivity.
  - split; [reflexivity|]. split; [destruct entry; reflexivity|].
    repeat split.
Qed.

Lemma undo_redo_drops_uncommitted_sliders_witness :
  exists u r,
    undo_img (updateAdjustment_img Kbrightness 150
                (pushHistory_img (filterOnly FilterType.SEPIA) sampleSession))
    = Some u
    /\ redo_img u = Some r
    /\ brightness (adjustments r) = 100%Z.
Proof.
  assert (Hlt : historyIndex
                  (pushHistory_img (filterOnly FilterType.SEPIA) sampleSession)
                < length (history (pushHistory_img (filterOnly FilterType.SEPIA)
                                     sampleSession))) by (simpl; lia).
  assert (Hpos : 0 < historyIndex
                       (pushHistory_img (filterOnly FilterType.SEPIA)
                          sampleSession)) by (simpl; lia).
  destruct (undo_redo_drops_uncommitted_sliders _ Kbrightness 150%Z Hlt Hpos)
    as (u & r & entry & U & R & He & _ & Ha & _).
  exists u, r. split; [exact U|]. split; [exact R|].
  rewrite Ha. simpl in He. inversion He. reflexivity.
Defined.

(** X14.  Choosing a filter commits the sliders with it.  On a session
    whose entry at the cursor is what it shows, a slider update followed by
    a filter choice appends one entry holding the unchanged image, the
    adjustments with the slider value, and the chosen filter.  One undo
    then shows exactly what was visible before the slider was touched, and
    one redo brings back both the slider value and the filter. *)
Theorem filter_choice_commits_sliders :
  forall img key value f,
    snapshot_invariant img ->
    let edited :=
      pushHistory_img (filterOnly f) (updateAdjustment_img key value img) in
    nth_error (history edited) (historyIndex edited)
    = Some {| h_current := current img;
              h_adjustments := setAdjustment key value (adjustments img);
              h_filter := f |}
    /\ historyIndex edited = historyIndex img + 1
    /\ exists u,
         undo_img edited = Some u
         /\ visible u = visible img
         /\ historyIndex u = historyIndex img
         /\ redo_img u = Some edited.
Proof.
  intros img key value f [Hlt Hsnap] edited.
  set (img1 := updateAdjustment_img key value img) in *.
  assert (Hsnap2 : snapshot_invariant edited)
    by (apply pushHistory_img_snapshot; reflexivity).
  assert (Hidx : historyIndex edited = historyIndex img + 1).
  { unfold edited. rewrite pushHistory_img_cursor. simpl. lia. }
  split; [unfold edited; rewrite pushHistory_img_at_cursor; reflexivity|].
  split; [exact Hidx|].
  destruct (undo_then_redo edited Hsnap2) as (u & U & Ui & R); [lia|].
  exists u. split; [exact U|]. split; [|split; [lia|exact R]].
  assert (Hprev : nth_error (history edited) (historyIndex edited - 1)
                  = Some (visible img)).
  { rewrite Hidx. replace (historyIndex img + 1 - 1) with (historyIndex img)
      by lia.
    unfold edited. rewrite pushHistory_img_prefix; simpl; try lia.
    exact Hsnap. }
  unfold undo_img in U.
  destruct (Nat.leb_spec (historyIndex edited) 0); [lia|].
  rewrite Hprev in U. inversion U. reflexivity.
Qed.

Lemma filter_choice_commits_sliders_witness :
  exists u,
    undo_img (pushHistory_img (filterOnly FilterType.VINTAGE)
                (updateAdjustment_img Kcontrast 120 sampleSession))
    = Some u
    /\ visible u = visible sampleSession.
Proof.
  assert (Hsnap : snapshot_invariant sampleSession).
  { split; [simpl; lia|reflexivity]. }
  destruct (filter_choice_commits_sliders sampleSession Kcontrast 120%Z
              FilterType.VINTAGE Hsnap) as (_ & _ & u & U & V & _).
  exists u. split; [exact U|exact V].
Defined.

(** ** Buttons and handlers *)

(** X15.  On a session whose cursor is a position of its history, the undo
    and redo buttons and their handlers agree.  A button that is enabled
    always acts: undo moves the cursor down by one, redo up by one.  At
    cursor 0 the undo button is disabled and [undo] would change nothing;
    on the last entry the redo button is disabled and [redo] would change
    nothing.  While a call is outstanding both buttons are disabled. *)
Theorem enabled_buttons_always_act :
  forall img p,
    historyIndex img < length (history img) ->
    (undoDisabled img p = false ->
     exists u,
       undo_img img = Some u /\ historyIndex u + 1 = historyIndex img)
    /\ (historyIndex img = 0 ->
        undoDisabled img p = true /\ undo_img img = Some img)
    /\ (redoDisabled img p = false ->
        exists r,
          redo_img img = Some r /\ historyIndex r = historyIndex img + 1)
    /\ (historyIndex img + 1 = length (history img) ->
        redoDisabled img p = true /\ redo_img img = Some img)
    /\ (isProcessing p = true ->
        undoDisabled img p = true /\ redoDisabled img p = true).
Proof.
  intros img p Hlt. unfold undoDisabled, redoDisabled.
  split; [|split; [|split; [|split]]].
  - intros H. apply orb_false_iff in H. destruct H as [H _].
    apply Nat.eqb_neq in H.
    destruct (undo_img_cases img Hlt) as [[H0 _]|[entry [Hpos [_ E]]]];
      [contradiction|].
    eexists. split; [exact E|]. simpl. lia.
  - intros H. rewrite H. split; [reflexivity|].
    apply undo_img_at_start, H.
  - intros H. apply orb_false_iff in H. destruct H as [H _].
    apply Nat.eqb_neq in H.
    destruct (redo_img_cases img Hlt) as [[H0 _]|[entry [Hpos [_ E]]]];
      [lia|].
    eexists. split; [exact E|]. reflexivity.
  - intros H. rewrite H, Nat.eqb_refl. split; [reflexivity|].
    apply redo_img_at_end. lia.
  - intros H. rewrite H, !orb_true_r. split; reflexivity.
Qed.

Lemma enabled_buttons_always_act_witness :
  undoDisabled sampleSession (processing sampleApp) = true
  /\ undo_img sampleSession = Some sampleSession.
Proof.
  assert (Hlt : historyIndex sampleSession < length (history sampleSession))
    by (simpl; lia).
  destruct (enabled_buttons_always_act sampleSession (processing sampleApp) Hlt)
    as (_ & Hzero & _).
  exact (Hzero eq_refl).
Defined.

(** ** More on the export *)

Lemma string_app_nil_r : forall a : string, String.append a "" = a.
Proof.
  induction a as [|x a IH]; simpl; [reflexivity|]. rewrite IH. reflexivity.
Qed.

(** X17.  The preview and the export apply the same filter chain.  For
    every adjustments value and every filter, the preview string of
    [getCssFilterString] is the export string [filters.join(' ')] of
    [generateFinalImage], followed by one space when the filter adds no
    term ([Normal] and [Blur]) and by nothing otherwise. *)
Theorem preview_and_export_chains_agree :
  forall adj type,
    getCssFilterString adj type
    = String.append (exportFilterString adj type)
        match type with
        | FilterType.NONE | FilterType.BLUR => " "
        | _ => ""
        end.
Proof.
  intros adj type.
  unfold getCssFilterString, exportFilterString, exportFilters.
  unfold appendIf, pushIf, adjustmentTerms.
  destruct type;
    cbn [FilterType.eqb List.app String.concat];
    rewrite ?string_app_nil_r, ?string_app_assoc; reflexivity.
Qed.

(** ** Uploads *)

Lemma find_app_first :
  forall (p : ImageState -> bool) l extra a,
    find p l = Some a -> find p (l ++ extra) = Some a.
Proof.
  intros p l extra a. induction l as [|x l IH]; [discriminate|].
  simpl. destruct (p x); [auto|exact IH].
Qed.

Lemma handleFileUpload_files :
  forall files st,
    map readFile (handleFileUpload files st) = List.filter isImageFile files.
Proof.
  intros files st. unfold handleFileUpload. rewrite map_map. simpl.
  apply map_id.
Qed.

Lemma filter_length_le :
  forall (A : Type) (p : A -> bool) (l : list A),
    length (List.filter p l) <= length l.
Proof.
  intros A p l. induction l as [|x l IH]; simpl; [lia|].
  destruct (p x); simpl; lia.
Qed.

(** X18.  A change event starts one reader for each file whose type starts
    with [image/], in the order of the files, and none for any other file;
    every reader closes over the [activeImageId] of the state the event was
    handled in.  When a read completes with an empty result the state is
    left exactly as it was; otherwise one session is added at the end,
    seeded with a single history entry that is what it shows, and nothing
    else changes but the selection.  The selection is decided by the value
    the reader closed over, not by the state at the time: closed over no
    active id, the first session of the list becomes the active one,
    whichever session was selected in between; closed over an active id,
    the selection is kept. *)
Theorem upload_accepts_images_only :
  forall files st,
    let reads := handleFileUpload files st in
    map readFile reads = List.filter isImageFile files
    /\ length reads <= length files
    /\ Forall (fun read => isImageFile (readFile read) = true
                           /\ readActiveImageId read = activeImageId st)
              reads
    /\ (forall file, isImageFile file = false ->
                     handleFileUpload [file] st = [])
    /\ forall read rid result st1,
         let st' := readerOnload read rid result st1 in
         let added := newImg rid (file_name (readFile read))
                             (file_type (readFile read)) result in
         (result = "" -> st' = st1)
         /\ (result <> "" ->
             images st' = images st1 ++ [added]
             /\ snapshot_invariant added
             /\ length (history added) = 1
             /\ processing st' = processing st1
             /\ selectedBgColor st' = selectedBgColor st1
             /\ customBgImage st' = customBgImage st1
             /\ cropConfig st' = cropConfig st1
             /\ (truthy (readActiveImageId read) = false ->
                 activeImageId st'
                 = option_map id (hd_error (images st1 ++ [added]))
                 /\ activeImage st' = hd_error (images st'))
             /\ (truthy (readActiveImageId read) = true ->
                 activeImageId st' = activeImageId st1)).
Proof.
  intros files st reads. unfold reads.
  split; [apply handleFileUpload_files|].
  split.
  { unfold handleFileUpload. rewrite length_map. apply filter_length_le. }
  split.
  { unfold handleFileUpload. apply Forall_forall. intros read Hin.
    apply in_map_iff in Hin. destruct Hin as (file & E & Hin).
    apply filter_In in Hin. destruct Hin as [_ Himg].
    subst read. simpl. split; [exact Himg|reflexivity]. }
  split.
  { intros file Hfile. unfold handleFileUpload. simpl. rewrite Hfile.
    reflexivity. }
  intros read rid result st1.
  set (added := newImg rid (file_name (readFile read))
                       (file_type (readFile read)) result).
  unfold readerOnload. fold added.
  split.
  - intros E. subst result. reflexivity.
  - intros Hb.
    assert (Hne : negb (String.eqb result "") = true).
    { apply negb_true_iff, String.eqb_neq, Hb. }
    rewrite Hne.
    split; [destruct (truthy (readActiveImageId read)); reflexivity|].
    split; [split; [simpl; lia|reflexivity]|].
    split; [reflexivity|].
    split; [destruct (truthy (readActiveImageId read)); reflexivity|].
    split; [destruct (truthy (readActiveImageId read)); reflexivity|].
    split; [destruct (truthy (readActiveImageId read)); reflexivity|].
    split; [destruct (truthy (readActiveImageId read)); reflexivity|].
    split.
    + intros Hcap. rewrite Hcap. split; [reflexivity|].
      unfold activeImage. simpl.
      destruct (images st1 ++ [added]) as [|first rest] eqn:E.
      * destruct (images st1); discriminate.
      * simpl. rewrite String.eqb_refl. reflexivity.
    + intros Hcap. rewrite Hcap. reflexivity.
Qed.

(** Two files read after one change event on the empty component, the
    second session selected in the filmstrip, then a third read completing
    from a reader that was started with no session active: the selection
    goes back to the first session. *)
Lemma late_read_moves_selection_to_first :
  let second := {| readFile := {| file_name := "b.png";
                                  file_type := "image/png" |};
                   readActiveImageId := None |} in
  exists s,
    run [ FileLoaded sampleRead "k3x9" samplePhoto;
          FileLoaded second "m4p7" "data:image/png;base64,BBBB";
          Select "m4p7";
          FileLoaded second "q8w2" "data:image/png;base64,CCCC" ]
        initialSys = Some s
    /\ map id (images (app s)) = ["k3x9"; "m4p7"; "q8w2"]
    /\ activeImageId (app s) = Some "k3x9".
Proof.
  eexists. split; [reflexivity|]. split; reflexivity.
Qed.

(** ** Backgrounds and edits around a call *)

Lemma handleAIEdit_begin_idle :
  forall kind st a,
    activeImage st = Some a ->
    isProcessing (processing st) = false ->
    handleAIEdit_begin kind st
    = (setProcessing
         {| isProcessing := true; error := None; mode := Some kind |} st,
       Some {| callImageId := id a;
               callImage := current a;
               callMimeType := mimeType a;
               callMode := kind;
               callOptions :=
                 {| backgroundColor := Some (selectedBgColor st);
                    backgroundImage := customBgImage st |} |}).
Proof.
  intros kind st a Ha Hp. unfold handleAIEdit_begin. rewrite Ha, Hp.
  reflexivity.
Qed.

(** X19.  A custom background is used once.  With a session active, no
    call outstanding, a custom background chosen and a non-empty colour
    selected, [Replace Background] asks the higher-capability model to
    composite.  When that succeeds the custom background is cleared, and
    the next [Replace Background] asks the default model for the selected
    colour; when it fails the custom background is kept and the next
    attempt composites again.  From the component the scenic-background
    instruction is never sent while the selected colour is non-empty. *)
Theorem custom_background_is_used_once :
  forall st a bg imageData mimeType,
    activeImage st = Some a ->
    isProcessing (processing st) = false ->
    customBgImage st = Some bg -> bg <> "" ->
    selectedBgColor st <> "" ->
    exists st1 call,
      handleAIEdit_begin EditMode.REPLACE_BG st = (st1, Some call)
      /\ model (configure imageData mimeType EditMode.REPLACE_BG
                  (callOptions call)) = MODEL_PRO
      /\ promptOf (contents (configure imageData mimeType EditMode.REPLACE_BG
                               (callOptions call))) = PROMPT_COMPOSITE
      /\ (forall resultBase64,
            let st2 := handleAIEdit_resume call (Ok resultBase64) st1 in
            customBgImage st2 = None
            /\ exists st3 call2,
                 handleAIEdit_begin EditMode.REPLACE_BG st2 = (st3, Some call2)
                 /\ model (configure imageData mimeType EditMode.REPLACE_BG
                             (callOptions call2)) = MODEL_FLASH
                 /\ promptOf (contents (configure imageData mimeType
                                          EditMode.REPLACE_BG
                                          (callOptions call2)))
                    = PROMPT_COLOR (selectedBgColor st))
      /\ (forall message,
            let st2 := handleAIEdit_resume call (Err message) st1 in
            customBgImage st2 = Some bg
            /\ exists st3 call2,
                 handleAIEdit_begin EditMode.REPLACE_BG st2 = (st3, Some call2)
                 /\ promptOf (contents (configure imageData mimeType
                                          EditMode.REPLACE_BG
                                          (callOptions call2)))
                    = PROMPT_COMPOSITE).
Proof.
  intros st a bg imageData mimeType Ha Hp Hbg Hne Hcol.
  assert (Tbg : truthy (Some bg) = true).
  { simpl. apply negb_true_iff, String.eqb_neq, Hne. }
  assert (Tcol : truthy (Some (selectedBgColor st)) = true).
  { simpl. apply negb_true_iff, String.eqb_neq, Hcol. }
  eexists. eexists.
  split; [apply (handleAIEdit_begin_idle _ _ a Ha Hp)|].
  cbn [callOptions]. unfold configure.
  cbn [backgroundImage backgroundColor]. rewrite Hbg, Tbg.
  split; [reflexivity|]. split; [reflexivity|]. split.
  - intros resultBase64.
    set (st2 := handleAIEdit_resume _ (Ok resultBase64) _).
    split; [reflexivity|].
    assert (Ha2 : activeImage st2
                  = Some (pushHistory_img (resultOnly resultBase64) a)).
    { exact (pushHistory_active (resultOnly resultBase64) st a Ha). }
    eexists. eexists.
    split; [apply (handleAIEdit_begin_idle _ _ _ Ha2 eq_refl)|].
    cbn [callOptions backgroundImage backgroundColor].
    change (customBgImage st2) with (@None string).
    change (selectedBgColor st2) with (selectedBgColor st).
    rewrite Tcol. split; reflexivity.
  - intros message.
    set (st2 := handleAIEdit_resume _ (Err message) _).
    split; [exact Hbg|].
    assert (Ha2 : activeImage st2 = Some a) by exact Ha.
    eexists. eexists.
    split; [apply (handleAIEdit_begin_idle _ _ _ Ha2 eq_refl)|].
    cbn [callOptions backgroundImage backgroundColor].
    change (customBgImage st2) with (customBgImage st).
    rewrite Hbg, Tbg. reflexivity.
Qed.

Lemma custom_background_is_used_once_witness :
  exists st1 call,
    handleAIEdit_begin EditMode.REPLACE_BG
      (handleBgUpload "data:image/jpeg;base64,CCCC" sampleApp)
    = (st1, Some call)
    /\ model (configure (Some "AAAA") "image/png" EditMode.REPLACE_BG
                (callOptions call)) = MODEL_PRO.
Proof.
  destruct (custom_background_is_used_once
              (handleBgUpload "data:image/jpeg;base64,CCCC" sampleApp)
              sampleSession "data:image/jpeg;base64,CCCC"
              (Some "AAAA") "image/png" eq_refl eq_refl eq_refl)
    as (st1 & call & Hb & Hm & _); [discriminate|discriminate|].
  exists st1, call. split; [exact Hb|exact Hm].
Defined.

(** X20.  Edits made while a call is outstanding are kept, and the result
    is committed on top of them.  If the user picks a filter on the session
    the call was started on and the call then succeeds, that session ends
    with the filter entry followed by the result entry, which carries the
    new filter: it is the commit of the result on the filter commit of the
    session.  The call is then no longer outstanding and the flag is
    down. *)
Theorem result_is_committed_on_latest_state :
  forall s call a f resultBase64,
    inflight s = [call] ->
    activeImage (app s) = Some a ->
    id a = callImageId call ->
    exists s2,
      run [SetFilter f; Settle (Ok resultBase64)] s = Some s2
      /\ activeImage (app s2)
         = Some (pushHistory_img (resultOnly resultBase64)
                   (pushHistory_img (filterOnly f) a))
      /\ inflight s2 = []
      /\ isProcessing (processing (app s2)) = false.
Proof.
  intros s call a f resultBase64 Hin Ha Hid.
  cbn [run step onApp inflight]. rewrite Hin.
  eexists. split; [reflexivity|]. cbn [app inflight].
  split; [|split; reflexivity].
  assert (H1 : activeImage (setFilter f (app s))
               = Some (pushHistory_img (filterOnly f) a)).
  { unfold setFilter. rewrite Ha.
    exact (pushHistory_active (filterOnly f) (app s) a Ha). }
  change (activeImage
            (pushHistory (resultOnly resultBase64) (callImageId call)
               (setFilter f (app s)))
          = Some (pushHistory_img (resultOnly resultBase64)
                    (pushHistory_img (filterOnly f) a))).
  rewrite <- Hid.
  exact (pushHistory_active (resultOnly resultBase64) _ _ H1).
Qed.

(** X21.  A result goes to the session its call was started on, whichever
    session is selected when it arrives.  If the user selects another
    image while the call is outstanding and the call then succeeds, the
    selection stays as the user made it, the sessions with the call's [id]
    get the result committed, and every other session is left exactly as it
    was. *)
Theorem result_goes_to_its_own_session :
  forall s call other resultBase64,
    inflight s = [call] ->
    exists s2,
      run [Select other; Settle (Ok resultBase64)] s = Some s2
      /\ activeImageId (app s2) = Some other
      /\ inflight s2 = []
      /\ Forall2
           (fun img img' =>
              if String.eqb (id img) (callImageId call)
              then img' = pushHistory_img (resultOnly resultBase64) img
              else img' = img)
           (images (app s)) (images (app s2)).
Proof.
  intros s call other resultBase64 Hin.
  cbn [run step onApp inflight]. rewrite Hin.
  eexists. split; [reflexivity|]. cbn [app inflight].
  split; [reflexivity|]. split; [reflexivity|].
  simpl. apply Forall2_mapMatching. intros img.
  destruct (String.eqb (id img) (callImageId call)); reflexivity.
Qed.

Lemma result_is_committed_on_latest_state_witness :
  exists s2,
    run [SetFilter FilterType.SEPIA; Settle (Ok "data:image/png;base64,BBBB")]
        sampleBusy = Some s2
    /\ option_map (fun img => length (history img)) (activeImage (app s2))
       = Some 3
    /\ option_map filter (activeImage (app s2)) = Some FilterType.SEPIA.
Proof.
  destruct (result_is_committed_on_latest_state sampleBusy sampleCall
              sampleSession FilterType.SEPIA "data:image/png;base64,BBBB"
              eq_refl eq_refl eq_refl) as (s2 & Hrun & Hact & _).
  exists s2. split; [exact Hrun|]. rewrite Hact. split; reflexivity.
Defined.

Lemma result_goes_to_its_own_session_witness :
  exists s2,
    run [Select "other"; Settle (Ok "data:image/png;base64,BBBB")] sampleBusy
    = Some s2
    /\ activeImageId (app s2) = Some "other".
Proof.
  destruct (result_goes_to_its_own_session sampleBusy sampleCall "other"
              "data:image/png;base64,BBBB" eq_refl)
    as (s2 & Hrun & Hact & _).
  exists s2. split; [exact Hrun|exact Hact].
Defined.

Lemma BACKGROUND_OPTIONS_values :
  hd_error (map snd BACKGROUND_OPTIONS) = Some BACKGROUND_OPTIONS_0_value
  /\ Forall (fun option => snd option <> "") BACKGROUND_OPTIONS.
Proof.
  split; [reflexivity|]. unfold BACKGROUND_OPTIONS.
  repeat (apply Forall_cons; [discriminate|]). apply Forall_nil.
Qed.

Lemma ASPECT_RATIOS_values :
  Forall (fun ratio =>
            snd ratio = None
            \/ exists r, snd ratio = Some r /\ truthyNumber r = true
                         /\ PrimFloat.ltb 0 r = true)
         ASPECT_RATIOS.
Proof.
  unfold ASPECT_RATIOS.
  repeat (apply Forall_cons;
          [simpl; first [left; reflexivity
                        |right; eexists; split; [reflexivity|];
                         split; vm_compute; reflexivity]|]).
  apply Forall_nil.
Qed.

(** X22.  Of a colour swatch and a custom background, the one chosen last
    decides the next [Replace Background].  With a session active and no
    call outstanding: after a swatch with a non-empty value is clicked, the
    request goes to the default model with the coloured-background
    instruction for that value, whatever custom image was chosen before;
    after a custom background is uploaded, it goes to the higher-capability
    model with the compositing instruction, whatever colour is selected; a
    background file that reads as empty changes nothing. *)
Theorem last_background_choice_wins :
  forall st a imageData mimeType,
    activeImage st = Some a ->
    isProcessing (processing st) = false ->
    (forall value,
        value <> "" ->
        exists st1 call,
          handleAIEdit_begin EditMode.REPLACE_BG (selectBackground value st)
          = (st1, Some call)
          /\ model (configure imageData mimeType EditMode.REPLACE_BG
                      (callOptions call)) = MODEL_FLASH
          /\ promptOf (contents (configure imageData mimeType
                                   EditMode.REPLACE_BG (callOptions call)))
             = PROMPT_COLOR value)
    /\ (forall dataUrl,
          dataUrl <> "" ->
          exists st1 call,
            handleAIEdit_begin EditMode.REPLACE_BG (handleBgUpload dataUrl st)
            = (st1, Some call)
            /\ model (configure imageData mimeType EditMode.REPLACE_BG
                        (callOptions call)) = MODEL_PRO
            /\ promptOf (contents (configure imageData mimeType
                                     EditMode.REPLACE_BG (callOptions call)))
               = PROMPT_COMPOSITE)
    /\ handleBgUpload "" st = st.
Proof.
  intros st a imageData mimeType Ha Hp. split; [|split; [|reflexivity]].
  - intros value Hv.
    assert (Tv : truthy (Some value) = true).
    { simpl. apply negb_true_iff, String.eqb_neq, Hv. }
    assert (Ha' : activeImage (selectBackground value st) = Some a) by exact Ha.
    eexists. eexists.
    split; [apply (handleAIEdit_begin_idle _ _ a Ha' Hp)|].
    cbn [callOptions]. unfold configure.
    cbn [backgroundImage backgroundColor].
    change (customBgImage (selectBackground value st)) with (@None string).
    change (selectedBgColor (selectBackground value st)) with value.
    rewrite Tv. split; reflexivity.
  - intros dataUrl Hd.
    assert (Td : truthy (Some dataUrl) = true).
    { simpl. apply negb_true_iff, String.eqb_neq, Hd. }
    assert (Eu : handleBgUpload dataUrl st = setCustomBgImage (Some dataUrl) st).
    { unfold handleBgUpload.
      destruct (String.eqb dataUrl "") eqn:E; [|reflexivity].
      apply String.eqb_eq in E. contradiction. }
    rewrite Eu.
    assert (Ha' : activeImage (setCustomBgImage (Some dataUrl) st) = Some a)
      by exact Ha.
    eexists. eexists.
    split; [apply (handleAIEdit_begin_idle _ _ a Ha' Hp)|].
    cbn [callOptions]. unfold configure.
    cbn [backgroundImage backgroundColor].
    change (customBgImage (setCustomBgImage (Some dataUrl) st))
      with (Some dataUrl).
    rewrite Td. split; reflexivity.
Qed.

Lemma last_background_choice_wins_witness :
  exists st1 call,
    handleAIEdit_begin EditMode.REPLACE_BG
      (selectBackground "#000000"
         (handleBgUpload "data:image/jpeg;base64,CCCC" sampleApp))
    = (st1, Some call)
    /\ promptOf (contents (configure (Some "AAAA") "image/png"
                             EditMode.REPLACE_BG (callOptions call)))
       = PROMPT_COLOR "#000000".
Proof.
  destruct (last_background_choice_wins
              (handleBgUpload "data:image/jpeg;base64,CCCC" sampleApp)
              sampleSession (Some "AAAA") "image/png" eq_refl eq_refl)
    as [Hcolor _].
  destruct (Hcolor "#000000") as (st1 & call & Hb & _ & Hprompt);
    [discriminate|].
  exists st1, call. split; [exact Hb|exact Hprompt].
Defined.

(** ** One image at a time *)

(** X23.  Undo, redo, slider updates and filter choices act on the active
    image only: every session whose [id] differs from the active session's
    is left exactly as it was, and so are the selection, the processing
    state, the background choices and the crop setting. *)
Theorem edits_leave_other_sessions_alone :
  forall action s s' a,
    (action = Undo \/ action = Redo
     \/ (exists key value, action = UpdateAdjustment key value)
     \/ (exists f, action = SetFilter f)) ->
    activeImage (app s) = Some a ->
    step action s = Some s' ->
    Forall2
      (fun img img' => String.eqb (id img) (id a) = false -> img' = img)
      (images (app s)) (images (app s'))
    /\ activeImageId (app s') = activeImageId (app s)
    /\ processing (app s') = processing (app s)
    /\ selectedBgColor (app s') = selectedBgColor (app s)
    /\ customBgImage (app s') = customBgImage (app s)
    /\ cropConfig (app s') = cropConfig (app s)
    /\ inflight s' = inflight s.
Proof.
  intros action s s' a Hkind Ha Hstep.
  assert (Hsame : Forall2
            (fun img img' => String.eqb (id img) (id a) = false -> img' = img)
            (images (app s)) (images (app s))).
  { apply Forall2_same. intros img _. reflexivity. }
  assert (Hmap : forall f,
            Forall2
              (fun img img' => String.eqb (id img) (id a) = false -> img' = img)
              (images (app s)) (mapMatching (id a) f (images (app s)))).
  { intros f. apply Forall2_mapMatching. intros img E. rewrite E. reflexivity. }
  destruct Hkind as [E|[E|[(key & value & E)|(f & E)]]]; subst action;
    simpl in Hstep.
  - unfold undo in Hstep. rewrite Ha in Hstep.
    destruct (historyIndex a <=? 0).
    + inversion Hstep; subst. simpl. repeat split. exact Hsame.
    + destruct (nth_error (history a) (historyIndex a - 1)); [|discriminate].
      inversion Hstep; subst. simpl. repeat split. apply Hmap.
  - unfold redo in Hstep. rewrite Ha in Hstep.
    destruct (length (history a) - 1 <=? historyIndex a).
    + inversion Hstep; subst. simpl. repeat split. exact Hsame.
    + destruct (nth_error (history a) (historyIndex a + 1)); [|discriminate].
      inversion Hstep; subst. simpl. repeat split. apply Hmap.
  - inversion Hstep; subst. simpl. unfold updateAdjustment. rewrite Ha.
    simpl. repeat split. apply Hmap.
  - inversion Hstep; subst. simpl. unfold setFilter. rewrite Ha.
    simpl. repeat split. apply Hmap.
Qed.

Lemma edits_leave_other_sessions_alone_witness :
  processing (app (mkSys (setFilter FilterType.SEPIA sampleApp) []))
  = processing sampleApp.
Proof.
  destruct (edits_leave_other_sessions_alone (SetFilter FilterType.SEPIA)
              (mkSys sampleApp [])
              (mkSys (setFilter FilterType.SEPIA sampleApp) [])
              sampleSession
              (or_intror (or_intror (or_intror
                 (ex_intro _ FilterType.SEPIA eq_refl))))
              eq_refl eq_refl) as (_ & _ & Hp & _).
  exact Hp.
Defined.

(** ** Type errors on the way *)

(** X24.  Two inputs make the adapter fail with the JavaScript engine's own
    [TypeError] text instead of a message of its own.  A response whose
    [candidates] array is empty is not reported as "no image data": the
    adapter fails with the engine's message for reading [content] of
    [undefined] (with ["Failed to process image"] if that message is
    empty).  A [null] source image fails before any model call with the
    engine's message for reading [split] of [null].  Either way the
    failure is recorded as the error and no session changes. *)
Theorem type_errors_surface_engine_message :
  forall host mimeType mode options call st,
    (forall dataUrl,
        generateContent host
          (configure (stripBase64Prefix dataUrl) mimeType mode options)
        = Resolved {| candidates := Some [] |} ->
        snd (performImageEdit host (Some dataUrl) mimeType mode options)
        = Err (or_else (typeErrorMessage host "content")
                       "Failed to process image")
        /\ (typeErrorMessage host "content" <> "" ->
            typeErrorMessage host "content" <> NO_IMAGE_DATA ->
            snd (performImageEdit host (Some dataUrl) mimeType mode options)
            <> Err NO_IMAGE_DATA))
    /\ snd (performImageEdit host None mimeType mode options)
       = Err (typeErrorMessage host "split")
    /\ requestsOf (fst (performImageEdit host None mimeType mode options)) = []
    /\ (forall message,
          images (handleAIEdit_resume call (Err message) st) = images st
          /\ error (processing (handleAIEdit_resume call (Err message) st))
             = Some (or_else message "Processing failed.")).
Proof.
  intros host mimeType mode options call st. split; [|split; [|split]].
  - intros dataUrl Hreply. unfold performImageEdit. cbn [snd].
    rewrite Hreply. split; [reflexivity|].
    intros Hne Hdiff. cbn [settle outputImageBase64 candidates].
    rewrite (or_else_left _ _ Hne). intros E. inversion E. contradiction.
  - reflexivity.
  - unfold performImageEdit, keySelection. cbn [fst].
    destruct (EditMode.eqb mode EditMode.ENHANCE
              || EditMode.eqb mode EditMode.REPLACE_BG); [|reflexivity].
    destruct (aistudio host) as [[|]|]; reflexivity.
  - intros message. split; reflexivity.
Qed.
